(** * The mail listener's file-queue hand-off ([listener.py])

    A shallow embedding of the listener's hand-off core: the subject filter,
    the payload writer, the [OnItemAdd] event handler, the single-slot
    dispatcher and the worker runner with its archive step, followed by the
    properties of the hand-off that the design document states.

    Conventions of the embedding.
    - A Python [str] is the [string] of its UTF-8 text.
    - A [pathlib.Path] is a pair (parent directory, file name); a directory
      is held as Windows, the listener's platform, shows it
      ([str(Path(r"C:/Users/john.tan/esker/queue"))] has backslashes).
    - The file system, the log files of the temp directory, the console and
      the module global [_executor] form the [World]; every function of the
      source that has effects is a state transformer on it that either
      returns or raises.
    - What the program cannot decide itself (clock readings, whether an
      operating-system call fails, what the external worker process does) is
      read from an [Env], one per handler or task invocation. *)

From Stdlib Require Import ZArith NArith Ascii Lia.
From stdpp Require Import base option list gmap strings.

Local Open Scope Z_scope.

(** ** Strings *)

Module Str.

(** [c.lower()] for one ASCII character. *)
Definition lower_char (c : ascii) : ascii :=
  let n := N_of_ascii c in
  if ((65 <=? n) && (n <=? 90))%N then ascii_of_N (n + 32) else c.

(** [s.lower()] on the UTF-8 text of [s], exact in every character that is
    or becomes ASCII: the letters [A]-[Z]; the Kelvin sign U+212A (bytes
    E2 84 AA), which lowers to [k]; and the dotted capital I U+0130 (bytes
    C4 B0), which lowers to [i] followed by the combining dot U+0307 (bytes
    CC 87).  Every other character lowers to characters outside ASCII
    (which ones depends on the Unicode tables of the Python at hand; the
    capital sigma also on its neighbours) and is carried through as it is:
    the ASCII text of the result, all the listener looks at, is that of
    [str.lower]. *)
Fixpoint lower (s : string) : string :=
  match s with
  | EmptyString => EmptyString
  | String c r =>
      let plain := String (lower_char c) (lower r) in
      if (N_of_ascii c =? 226)%N then
        match r with
        | String c1 (String c2 r2) =>
            if ((N_of_ascii c1 =? 132) && (N_of_ascii c2 =? 170))%N
            then String "k" (lower r2) else plain
        | _ => plain
        end
      else if (N_of_ascii c =? 196)%N then
        match r with
        | String c1 r1 =>
            if (N_of_ascii c1 =? 176)%N
            then String "i" (String (ascii_of_N 204) (String (ascii_of_N 135) (lower r1)))
            else plain
        | _ => plain
        end
      else plain
  end.

(** [s.startswith(k)] *)
Fixpoint startswith (k s : string) : bool :=
  match k, s with
  | EmptyString, _ => true
  | String a k', String b s' => if decide (a = b) then startswith k' s' else false
  | String _ _, EmptyString => false
  end.

(** [k in s] for two strings. *)
Fixpoint contains (k s : string) : bool :=
  startswith k s ||
  match s with
  | EmptyString => false
  | String _ s' => contains k s'
  end.

(** [a or b] on strings: the empty string is falsy. *)
Definition or_else (a b : string) : string :=
  if decide (a = "") then b else a.

Fixpoint repeat_char (c : ascii) (n : nat) : string :=
  match n with
  | O => ""
  | S m => String c (repeat_char c m)
  end.

(** [s.zfill(w)] for a string without sign. *)
Definition zfill (w : nat) (s : string) : string :=
  repeat_char "0"%char (w - String.length s) +:+ s.

Definition digit_char (d : N) : ascii := ascii_of_N (48 + d).

(** Decimal digits of [n], most significant first; [fuel] bounds the
    number of digits produced. *)
Fixpoint dec_digits (fuel : nat) (n : N) : string :=
  match fuel with
  | O => ""
  | S f =>
      if (n <? 10)%N then String (digit_char n) ""
      else dec_digits f (n / 10)%N +:+ String (digit_char (n mod 10)%N) ""
  end.

(** [str(n)] for a natural number. *)
Definition of_N (n : N) : string :=
  dec_digits (S (N.to_nat (N.log2 n))) n.

(** [format(z, "0<w>d")]: sign-aware zero padding to width [w]. *)
Definition format_0d (w : nat) (z : Z) : string :=
  if z <? 0 then String "-"%char (zfill (w - 1) (of_N (Z.to_N (- z))))
  else zfill w (of_N (Z.to_N z)).

(** Reading a digit string back: the value of a character and of a string
    of decimal digits (used to state that formatting loses nothing). *)
Definition digit_val (c : ascii) : N := (N_of_ascii c - 48)%N.

Fixpoint dec_value_from (acc : N) (s : string) : N :=
  match s with
  | EmptyString => acc
  | String c r => dec_value_from (10 * acc + digit_val c)%N r
  end.

Definition dec_value (s : string) : N := dec_value_from 0 s.

Definition is_digit (c : ascii) : bool :=
  let n := N_of_ascii c in ((48 <=? n) && (n <=? 57))%N.

Fixpoint all_digits (s : string) : bool :=
  match s with
  | EmptyString => true
  | String c r => is_digit c && all_digits r
  end.

End Str.

(** ** Paths, exceptions and the ambient environment *)

(** [Path(parent) / name]; [p.parent] and [p.name] are the projections. *)
Abbreviation Path := (string * string)%type.

Definition path_parent (p : Path) : string := fst p.
Definition path_name (p : Path) : string := snd p.

(** The separator of Windows paths. *)
Definition sep : ascii := ascii_of_N 92.

Fixpoint ends_with (c : ascii) (s : string) : bool :=
  match s with
  | EmptyString => false
  | String a EmptyString => bool_decide (a = c)
  | String _ r => ends_with c r
  end.

(** [str(p)]: a parent that is a drive root ([C:\]) ends in the separator
    already. *)
Definition path_str (p : Path) : string :=
  if ends_with sep (fst p) then fst p +:+ snd p
  else fst p +:+ String sep (snd p).

(** The parents of a directory, root first: the prefixes up to each
    separator; the drive keeps its separator ([C:\a\b] has the parents
    [C:\] and [C:\a]). *)
Fixpoint parents_from (seen rest : string) : list string :=
  match rest with
  | EmptyString => []
  | String c r =>
      if bool_decide (c = sep) then
        match r with
        | EmptyString => []
        | _ =>
            (if bool_decide (seen = "") || ends_with ":" seen
             then seen +:+ String sep "" else seen)
            :: parents_from (seen +:+ String sep "") r
        end
      else parents_from (seen +:+ String c "") r
  end.

(** [Path(d).parents], nearest first. *)
Definition parents (d : string) : list string := reverse (parents_from "" d).

Arguments path_str : simpl never.
Arguments parents : simpl never.

(** The exception classes the handlers of the listener can meet; all of them
    derive from [Exception]. *)
Inductive exn_class : Type :=
  | OSError | AttributeError | ValueError | TypeError | ComError | RuntimeError.

Record exn : Type := Exn { exn_cls : exn_class; exn_msg : string }.

(** [isinstance(e, OSError)] *)
Definition is_OSError (e : exn) : bool :=
  match exn_cls e with OSError => true | _ => false end.

(** The operating-system calls of the hand-off, as far as they can fail. *)
Inductive io_op : Type :=
  | OpMkdir (d : string)
  | OpWriteText (p : Path)
  | OpCopy (src dst : Path)
  | OpUnlink (p : Path)
  | OpAppend (log : string).

(** [subprocess.run(...)]: the command could not be started (the call
    raises), or a [CompletedProcess] with its return code and captured
    streams. *)
Inductive proc_result : Type :=
  | SpawnError (e : exn)
  | Completed (returncode : Z) (stdout stderr : string).

Record Env : Type := {
  (** [Some msg]: the call raises [OSError(msg)]; [None]: it goes through. *)
  io_error : io_op -> option string;
  (** [time.strftime("%Y%m%d_%H%M%S")] *)
  strftime_now : string;
  (** [time.time_ns()] *)
  time_ns : Z;
  (** [time.ctime()] *)
  ctime : string;
  (** [sys.executable] and [os.environ] *)
  sys_executable : string;
  os_environ : gmap string string;
  (** [subprocess.run(cmd, cwd=..., env=..., capture_output=True, text=True)],
      as [run_worker] sees it: the result of the call.  What the worker
      process does on disk in the meantime is not part of the model; it is
      taken to leave the files of the hand-off as they are. *)
  subprocess_run : list string -> string -> gmap string string -> proc_result;
}.

(** ** The dispatcher's pool and the world *)

(** A work item of the pool: [worker_task] applied to a job path.  The
    ticket is the position of the submission among all submissions (the
    identity of the [Future] that [submit] returns). *)
Record Task : Type := { ticket : nat; task_path : Path }.

(** A [ThreadPoolExecutor]: a first-in first-out work queue served by at
    most [max_workers] threads, each running one work item at a time. *)
Record Pool : Type := {
  max_workers : nat;
  thread_name_prefix : string;
  work_queue : list Task;
  in_flight : list Task;
  issued : nat;
}.

(** What the dispatcher has done so far, oldest first. *)
Inductive event : Type :=
  | EvSubmit (t : nat)
  | EvStart (t : nat)
  | EvDone (t : nat).

#[global] Instance event_eq_dec : EqDecision event.
Proof. solve_decision. Defined.

Record World : Type := {
  (** regular files: path to text content *)
  files : gmap (string * string) string;
  (** directories that exist *)
  dirs : gset string;
  (** the log files of the temp directory, by file name, line by line *)
  logs : gmap string (list string);
  (** what [print] has written *)
  console : list string;
  (** the module global [_executor] *)
  executor : option Pool;
  (** the dispatcher's history: a record of what has happened, kept to
    state properties; no code reads it *)
  history : list event;
}.

Definition with_files (f : gmap (string * string) string) (w : World) : World :=
  {| files := f; dirs := dirs w; logs := logs w; console := console w;
     executor := executor w; history := history w |}.
Definition with_dirs (d : gset string) (w : World) : World :=
  {| files := files w; dirs := d; logs := logs w; console := console w;
     executor := executor w; history := history w |}.
Definition with_logs (l : gmap string (list string)) (w : World) : World :=
  {| files := files w; dirs := dirs w; logs := l; console := console w;
     executor := executor w; history := history w |}.
Definition with_console (c : list string) (w : World) : World :=
  {| files := files w; dirs := dirs w; logs := logs w; console := c;
     executor := executor w; history := history w |}.
Definition with_executor (e : option Pool) (w : World) : World :=
  {| files := files w; dirs := dirs w; logs := logs w; console := console w;
     executor := e; history := history w |}.
Definition with_history (h : list event) (w : World) : World :=
  {| files := files w; dirs := dirs w; logs := logs w; console := console w;
     executor := executor w; history := h |}.

(** The world at process start: nothing on disk that matters, no pool. *)
Definition initial_world : World :=
  {| files := ∅; dirs := ∅; logs := ∅; console := []; executor := None;
     history := [] |}.

(** ** Computations that return or raise *)

Inductive outcome (A : Type) : Type :=
  | Returns (a : A)
  | Raises (e : exn).
Arguments Returns {A} a.
Arguments Raises {A} e.

Definition M (A : Type) : Type := World -> outcome A * World.

Definition ret {A} (a : A) : M A := fun w => (Returns a, w).
Definition raise {A} (e : exn) : M A := fun w => (Raises e, w).
Definition bind {A B} (c : M A) (k : A -> M B) : M B :=
  fun w =>
    match c w with
    | (Returns a, w') => k a w'
    | (Raises e, w') => (Raises e, w')
    end.

(** [try: c  except Exception as e: h e] *)
Definition try_except {A} (c : M A) (h : exn -> M A) : M A :=
  fun w =>
    match c w with
    | (Returns a, w') => (Returns a, w')
    | (Raises e, w') => h e w'
    end.

(** [try: c  except OSError: pass] *)
Definition try_except_OSError_pass (c : M unit) : M unit :=
  fun w =>
    match c w with
    | (Returns a, w') => (Returns a, w')
    | (Raises e, w') => if is_OSError e then (Returns tt, w') else (Raises e, w')
    end.

Declare Scope py_scope.
Delimit Scope py_scope with py.
Notation "x <- c ;; k" := (bind c (fun x => k))
  (at level 100, c at next level, right associativity) : py_scope.
Notation "c ;; k" := (bind c (fun _ => k))
  (at level 100, right associativity) : py_scope.
Local Open Scope py_scope.

(** ** Operating-system calls *)

Section Primitives.
Variable env : Env.

Definition os_call (op : io_op) (effect : World -> World) : M unit :=
  fun w =>
    match io_error env op with
    | Some msg => (Raises (Exn OSError msg), w)
    | None => (Returns tt, effect w)
    end.

(** What a call [d.mkdir(parents=True, exist_ok=True)] that raises leaves
    behind, for the parents of [d], nearest first: [pathlib] makes the
    parent by the same call before it makes [d], so this is the parent and
    all above it when the call for the parent goes through, and otherwise
    what that call leaves behind in its turn. *)
Fixpoint made (chain : list string) : gset string :=
  match chain with
  | [] => ∅
  | d :: up =>
      match io_error env (OpMkdir d) with
      | None => {[ d ]} ∪ list_to_set up
      | Some _ => made up
      end
  end.

(** [d.mkdir(parents=True, exist_ok=True)]: when the call goes through, [d]
    and every parent of [d] exist. *)
Definition mkdir (d : string) : M unit :=
  fun w =>
    match io_error env (OpMkdir d) with
    | Some msg =>
        (Raises (Exn OSError msg), with_dirs (made (parents d) ∪ dirs w) w)
    | None =>
        (Returns tt, with_dirs ({[ d ]} ∪ list_to_set (parents d) ∪ dirs w) w)
    end.

(** [p.write_text(text, encoding="utf-8")] *)
Definition write_text (p : Path) (text : string) : M unit :=
  os_call (OpWriteText p) (fun w => with_files (<[ p := text ]> (files w)) w).

(** [shutil.copy2(src, dst)]: copying a file onto itself raises
    [SameFileError] and a missing source raises [FileNotFoundError] (both
    are [OSError]s). *)
Definition copy2 (src dst : Path) : M unit :=
  fun w =>
    if decide (src = dst) then
      (Raises (Exn OSError (path_str src +:+ " and " +:+ path_str dst
                            +:+ " are the same file")), w)
    else
      match files w !! src with
      | None => (Raises (Exn OSError ("No such file or directory: " +:+ path_str src)), w)
      | Some content =>
          os_call (OpCopy src dst)
                  (fun w => with_files (<[ dst := content ]> (files w)) w) w
      end.

(** [p.unlink()]: a missing file raises [FileNotFoundError]. *)
Definition unlink (p : Path) : M unit :=
  fun w =>
    match files w !! p with
    | None => (Raises (Exn OSError ("No such file or directory: " +:+ path_str p)), w)
    | Some _ =>
        os_call (OpUnlink p) (fun w => with_files (delete p (files w)) w) w
    end.

(** [with (tempdir / log).open("a") as f: f.write(line)] *)
Definition log_append (log : string) (line : string) : M unit :=
  os_call (OpAppend log)
          (fun w => with_logs (<[ log := default [] (logs w !! log) ++ [line] ]> (logs w)) w).

(** [print(line)] *)
Definition print (line : string) : M unit :=
  fun w => (Returns tt, with_console (console w ++ [line]) w).

End Primitives.

(** ** JSON text of a payload *)

Definition nl : string := String (ascii_of_N 10) "".
Definition dquote : ascii := ascii_of_N 34.
Definition backslash : ascii := ascii_of_N 92.

Definition hex_digit (n : N) : ascii :=
  if (n <? 10)%N then ascii_of_N (48 + n) else ascii_of_N (87 + n).

(** The escapes of [json.dumps(..., ensure_ascii=False)]: the quote, the
    backslash and the control characters; everything else is kept. *)
Definition json_escape_char (c : ascii) : string :=
  let n := N_of_ascii c in
  if (n =? 34)%N then String backslash (String dquote "")
  else if (n =? 92)%N then String backslash (String backslash "")
  else if (n =? 10)%N then String backslash "n"
  else if (n =? 13)%N then String backslash "r"
  else if (n =? 9)%N then String backslash "t"
  else if (n =? 8)%N then String backslash "b"
  else if (n =? 12)%N then String backslash "f"
  else if (n <? 32)%N then
    String backslash ("u00" +:+ String (hex_digit (n / 16)) (String (hex_digit (n mod 16)) ""))
  else String c "".

Fixpoint json_escape (s : string) : string :=
  match s with
  | EmptyString => ""
  | String c r => json_escape_char c +:+ json_escape r
  end.

Definition json_string (s : string) : string :=
  String dquote (json_escape s +:+ String dquote "").

Fixpoint join (sep : string) (l : list string) : string :=
  match l with
  | [] => ""
  | [x] => x
  | x :: r => x +:+ sep +:+ join sep r
  end.

(** [json.dumps(data, ensure_ascii=False, indent=2)] for a dict from strings
    to strings, in insertion order. *)
Definition json_dumps (data : list (string * string)) : string :=
  match data with
  | [] => "{}"
  | _ =>
      "{" +:+ nl +:+
      join ("," +:+ nl)
           (map (fun kv => "  " +:+ json_string (fst kv) +:+ ": " +:+ json_string (snd kv)) data)
      +:+ nl +:+ "}"
  end.

(** ** Configuration

    The directories are [Path] constants in the source; each is held as
    [str()] shows it on Windows. *)

Definition APP_UI : Path := ("C:\Users\john.tan\esker\Scripts", "app_ui.py").
Definition QUEUE_DIR : string := "C:\Users\john.tan\esker\queue".
Definition ARCHIVE_SUCCESS_DIR : string := "C:\Users\john.tan\esker\archive\success".
Definition DOWNLOADS_DIR : string := "C:\Users\john.tan\Downloads".
Definition KEYWORDS : list string := ["esker vendor email"; "esker gl email"].

Definition RUNNER_LOG : string := "esker_listener_runner.log".
Definition ERRORS_LOG : string := "esker_listener_errors.log".

(** ** The subject filter and the payload writer *)

Definition subject_hit (subj : string) : bool :=
  let s := Str.lower (Str.or_else subj "") in
  existsb (fun k => Str.contains k s) KEYWORDS.

(** The file name of a job from the two clock readings of the writer. *)
Definition job_filename (ts : string) (ns : Z) : string :=
  ts +:+ "_" +:+ Str.format_0d 9 (ns mod 1000000000) +:+ ".json".

Section Writer.
Variable env : Env.

Definition write_temp_json (data : list (string * string)) : M Path :=
  mkdir env QUEUE_DIR ;;
  let ts := strftime_now env in
  let fname := job_filename ts (time_ns env) in
  let p : Path := (QUEUE_DIR, fname) in
  write_text env p (json_dumps data) ;;
  let downloads := DOWNLOADS_DIR in
  mkdir env downloads ;;
  copy2 env p (downloads, path_name p) ;;
  ret p.

End Writer.

(** ** Outlook items as the handler reads them *)

(** Reading an attribute of a COM object: it is missing (the read raises
    [AttributeError]), it has a value, or the read raises something else. *)
Inductive attr (A : Type) : Type :=
  | Absent
  | Has (a : A)
  | Broken (e : exn).
Arguments Absent {A}.
Arguments Has {A} a.
Arguments Broken {A} e.

(** The value of [ReceivedTime]: a [datetime], whose [strftime] works, or a
    value whose [strftime] call raises and that only has a [str()]. *)
Inductive com_date : Type :=
  | PyDateTime (year month day hour minute second : Z)
  | NoStrftime (text : string) (err : exn).

Record Item : Type := {
  Class : attr Z;
  Subject : attr string;
  SenderEmailAddress : attr string;
  Body : attr string;
  ReceivedTime : attr com_date;
  EntryID : attr string;
}.

Definition attr_map {A B} (f : A -> B) (a : attr A) : attr B :=
  match a with
  | Absent => Absent
  | Has v => Has (f v)
  | Broken e => Broken e
  end.

(** [getattr(item, name, default)] *)
Definition getattr_default {A} (a : attr A) (default : A) : M A :=
  match a with
  | Absent => ret default
  | Has v => ret v
  | Broken e => raise e
  end.

(** [item.name] *)
Definition getattr {A} (name : string) (a : attr A) : M A :=
  match a with
  | Absent => raise (Exn AttributeError name)
  | Has v => ret v
  | Broken e => raise e
  end.

(** [recv.strftime("%Y-%m-%dT%H:%M:%SZ")]; the year is padded to four
    digits, as the C runtime of Windows does. *)
Definition strftime_iso_z (recv : com_date) : M string :=
  match recv with
  | PyDateTime y mo d h mi s =>
      ret (Str.format_0d 4 y +:+ "-" +:+ Str.format_0d 2 mo +:+ "-" +:+ Str.format_0d 2 d
           +:+ "T" +:+ Str.format_0d 2 h +:+ ":" +:+ Str.format_0d 2 mi +:+ ":"
           +:+ Str.format_0d 2 s +:+ "Z")
  | NoStrftime _ err => raise err
  end.

(** [str(recv)] *)
Definition date_str (recv : com_date) : string :=
  match recv with
  | PyDateTime y mo d h mi s =>
      Str.format_0d 4 y +:+ "-" +:+ Str.format_0d 2 mo +:+ "-" +:+ Str.format_0d 2 d
      +:+ " " +:+ Str.format_0d 2 h +:+ ":" +:+ Str.format_0d 2 mi +:+ ":"
      +:+ Str.format_0d 2 s +:+ "+00:00"
  | NoStrftime text _ => text
  end.

(** ** The dispatcher *)

#[global] Instance Task_eq_dec : EqDecision Task.
Proof. solve_decision. Defined.

(** [ThreadPoolExecutor(max_workers=n, thread_name_prefix=prefix)] *)
Definition ThreadPoolExecutor (n : nat) (prefix : string) : Pool :=
  {| max_workers := n; thread_name_prefix := prefix;
     work_queue := []; in_flight := []; issued := 0 |}.

(** The body runs under [_executor_lock], hence as one step.  The pool it
    returns is the module global itself, so that the caller's [submit] acts
    on the global. *)
Definition ensure_worker_executor : M unit :=
  fun w =>
    match executor w with
    | None =>
        (Returns tt,
         with_executor (Some (ThreadPoolExecutor 1 "esker-worker")) w)
    | Some _ => (Returns tt, w)
    end.

(** [executor.submit(worker_task, json_path)]: the work item joins the end
    of the work queue. *)
Definition submit (json_path : Path) : M unit :=
  fun w =>
    match executor w with
    | None => (Raises (Exn RuntimeError "no executor"), w)
    | Some pool =>
        let t := {| ticket := issued pool; task_path := json_path |} in
        (Returns tt,
         with_history (history w ++ [EvSubmit (issued pool)])
           (with_executor
              (Some {| max_workers := max_workers pool;
                       thread_name_prefix := thread_name_prefix pool;
                       work_queue := work_queue pool ++ [t];
                       in_flight := in_flight pool;
                       issued := S (issued pool) |}) w))
    end.

Definition enqueue_worker (json_path : Path) : M unit :=
  print ("[listener] Queued automation job for " +:+ path_name json_path) ;;
  ensure_worker_executor ;;
  submit json_path.

(** ** The worker runner and its archive step *)

(** [str(z)] for an integer. *)
Definition str_of_Z (z : Z) : string :=
  if z <? 0 then String "-"%char (Str.of_N (Z.to_N (- z))) else Str.of_N (Z.to_N z).

(** [str(cmd)] for a list of strings, as the log line shows it. *)
Definition repr_list (l : list string) : string :=
  "[" +:+ join ", " (map (fun s => "'" +:+ s +:+ "'") l) +:+ "]".

Section Worker.
Variable env : Env.

(** The environment handed to the worker process: the job's directory and
    file name under two variables, and no [ESKER_DRYRUN]. *)
Definition worker_environ (json_path : Path) : gmap string string :=
  let env0 := os_environ env in
  let env1 := delete "ESKER_DRYRUN" env0 in
  let env2 := <[ "ESKER_VENDOR_JSON_DIR" := path_parent json_path ]> env1 in
  <[ "ESKER_VENDOR_JSON_PATTERN" := path_name json_path ]> env2.

Definition worker_cmd : list string :=
  [sys_executable env; path_str APP_UI; "--mode=worker"].

(** The [subprocess.run] call of [run_worker] with its arguments. *)
Definition worker_result (json_path : Path) : proc_result :=
  subprocess_run env worker_cmd (path_parent APP_UI) (worker_environ json_path).

Definition run_worker (json_path : Path) : M unit :=
  let cmd := worker_cmd in
  let log_path := RUNNER_LOG in
  print ("[listener] Starting automation for " +:+ path_name json_path) ;;
  match worker_result json_path with
  | SpawnError e => raise e
  | Completed returncode stdout stderr =>
      log_append env log_path
        (ctime env +:+ " ran " +:+ repr_list cmd +:+ " for " +:+ path_name json_path
           +:+ " -> rc=" +:+ str_of_Z returncode +:+ nl
         +:+ (if decide (stdout = "") then "" else "stdout:" +:+ nl +:+ stdout +:+ nl)
         +:+ (if decide (stderr = "") then "" else "stderr:" +:+ nl +:+ stderr +:+ nl)) ;;
      if returncode =? 0 then
        mkdir env ARCHIVE_SUCCESS_DIR ;;
        copy2 env json_path (ARCHIVE_SUCCESS_DIR, path_name json_path) ;;
        try_except_OSError_pass (unlink env json_path) ;;
        print ("[listener] Worker completed; archived to "
               +:+ path_str (ARCHIVE_SUCCESS_DIR, path_name json_path))
      else
        print ("[listener] Worker failed for " +:+ path_name json_path
               +:+ "; see " +:+ log_path)
  end.

Definition worker_task (json_path : Path) : M unit :=
  try_except (run_worker json_path)
    (fun exc =>
       log_append env RUNNER_LOG
         (ctime env +:+ " worker_task error for " +:+ path_name json_path
            +:+ ": " +:+ exn_msg exc +:+ nl)).

End Worker.

(** ** The event handler *)

Section Handler.
Variable env : Env.

(** The record the handler builds, in the order of the dict literal. *)
Definition payload_of (subj sender recv_str body entry_id : string)
  : list (string * string) :=
  [("subject", subj); ("sender_address", sender); ("received_utc", recv_str);
   ("body", body); ("entry_id", entry_id)].

(** The [try] block of [OnItemAdd]. *)
Definition OnItemAdd_try (item : Item) : M unit :=
  cls <- getattr_default (attr_map Some (Class item)) None ;;
  if negb (bool_decide (cls = Some 43)) then ret tt else
  subj <- getattr_default (Subject item) "" ;;
  if negb (subject_hit subj) then ret tt else
  sender <- getattr_default (SenderEmailAddress item) "" ;;
  body <- getattr_default (Body item) "" ;;
  recv <- getattr "ReceivedTime" (ReceivedTime item) ;;
  recv_str <- try_except (strftime_iso_z recv) (fun _ => ret (date_str recv)) ;;
  entry_id <- getattr_default (EntryID item) "" ;;
  let payload := payload_of subj sender recv_str body entry_id in
  json_path <- write_temp_json env payload ;;
  print ("[listener] Triggered for: " +:+ subj +:+ " -> " +:+ path_str json_path) ;;
  enqueue_worker json_path.

Definition OnItemAdd (item : Item) : M unit :=
  try_except (OnItemAdd_try item)
    (fun e =>
       log_append env ERRORS_LOG
         (ctime env +:+ " OnItemAdd error: " +:+ exn_msg e +:+ nl)).

End Handler.

(** ** The running system *)

(** The listening loop of [main]: the message pump calls [OnItemAdd] once
    per arriving item; an exception that leaves the handler ends the loop. *)
Fixpoint pump (arrivals : list (Env * Item)) : M unit :=
  match arrivals with
  | [] => ret tt
  | (env, item) :: rest => OnItemAdd env item ;; pump rest
  end.

Definition pool_with (q running : list Task) (pool : Pool) : Pool :=
  {| max_workers := max_workers pool;
     thread_name_prefix := thread_name_prefix pool;
     work_queue := q; in_flight := running; issued := issued pool |}.

(** A free worker thread takes the oldest work item of the queue and starts
    [worker_task] on it. *)
Definition pool_start (w : World) : option World :=
  match executor w with
  | Some pool =>
      match work_queue pool with
      | t :: q =>
          if decide (length (in_flight pool) < max_workers pool)%nat then
            Some (with_history (history w ++ [EvStart (ticket t)])
                    (with_executor
                       (Some (pool_with q (in_flight pool ++ [t]) pool)) w))
          else None
      | [] => None
      end
  | None => None
  end.

(** A work item in flight runs to its end: the effects of [worker_task] take
    place, what it returns or raises stays in its future, and its thread is
    free again. *)
Definition pool_finish (env : Env) (t : Task) (w : World) : option World :=
  match executor w with
  | Some pool =>
      if decide (t ∈ in_flight pool) then
        let w1 := snd (worker_task env (task_path t) w) in
        Some (with_history (history w1 ++ [EvDone (ticket t)])
                (with_executor
                   (Some (pool_with (work_queue pool)
                            (filter (fun u => u ≠ t) (in_flight pool)) pool)) w1))
      else None
  | None => None
  end.

(** One step of the process: the main thread handles an arriving item, or a
    pool thread starts or finishes a work item. *)
Inductive step : World -> World -> Prop :=
  | step_item env item w :
      step w (snd (OnItemAdd env item w))
  | step_start w w' :
      pool_start w = Some w' -> step w w'
  | step_finish env t w w' :
      pool_finish env t w = Some w' -> step w w'.

(** A process starts without a pool and with an empty history. *)
Definition fresh (w : World) : Prop := executor w = None /\ history w = [].

Inductive reachable : World -> Prop :=
  | reach_fresh w : fresh w -> reachable w
  | reach_step w w' : reachable w -> step w w' -> reachable w'.

(** ** The shape of a timestamp *)

(** One position of a fixed-width text: a decimal digit or a given
    character. *)
Inductive shape : Type :=
  | Digit
  | Lit (c : ascii).

Fixpoint has_shape (p : list shape) (s : string) : bool :=
  match p, s with
  | [], EmptyString => true
  | Digit :: p', String c s' => Str.is_digit c && has_shape p' s'
  | Lit a :: p', String c s' => bool_decide (a = c) && has_shape p' s'
  | _, _ => false
  end.

(** [YYYY-MM-DDTHH:MM:SSZ] *)
Definition iso8601_z : list shape :=
  [Digit; Digit; Digit; Digit; Lit "-"; Digit; Digit; Lit "-"; Digit; Digit; Lit "T";
   Digit; Digit; Lit ":"; Digit; Digit; Lit ":"; Digit; Digit; Lit "Z"]%char.

Definition is_iso8601_z (s : string) : bool := has_shape iso8601_z s.

(** The ranges of the fields of a [datetime]. *)
Definition valid_datetime (y mo d h mi s : Z) : Prop :=
  1 <= y <= 9999 /\ 1 <= mo <= 12 /\ 1 <= d <= 31 /\
  0 <= h <= 23 /\ 0 <= mi <= 59 /\ 0 <= s <= 59.

(** ** Diagnostics of the COM set-up and the makepy runs *)

Definition CLEANUP_LOG : string := "esker_com_cleanup.log".

(** [_log_com_message]: the append is inside [try ... except Exception:
    pass].  [env] is the environment of this one call: its clock reading
    and whether the log can be appended to. *)
Definition _log_com_message (env : Env) (message : string) : M unit :=
  try_except
    (log_append env CLEANUP_LOG (ctime env +:+ " " +:+ message +:+ nl))
    (fun _ => ret tt).

(** What [GenerateFromTypeLibSpec] is given: a name, or the tuple
    [(guid, lcid, major, minor)]. *)
Inductive typelib_spec : Type :=
  | SpecName (name : string)
  | SpecTuple (guid : string) (lcid major minor : Z).

#[global] Instance typelib_spec_eq_dec : EqDecision typelib_spec.
Proof. solve_decision. Defined.

Definition OUTLOOK_TYPELIB_GUID : string := "{00062FFF-0000-0000-C000-000000000046}".
Definition OUTLOOK_MAKEPY_SPECS : list typelib_spec :=
  [SpecName "Outlook.Application"; SpecName "Microsoft Outlook 16.0 Object Library"].

(** The truth value of a spec: the empty name is falsy, a tuple of four is
    not. *)
Definition spec_truthy (s : typelib_spec) : bool :=
  match s with
  | SpecName name => negb (bool_decide (name = ""))
  | SpecTuple _ _ _ _ => true
  end.

(** The makepy module: [GenerateFromTypeLibSpec(spec)] does what it does to
    the world, and returns or raises. *)
Record makepy : Type := {
  GenerateFromTypeLibSpec : typelib_spec -> M unit;
}.

(** The first loop of [_generate_outlook_typelib]: the specs to attempt and
    the set of specs seen. *)
Fixpoint collect_specs (specs attempted seen : list typelib_spec)
  : list typelib_spec * list typelib_spec :=
  match specs with
  | [] => (attempted, seen)
  | spec :: rest =>
      if spec_truthy spec && negb (bool_decide (spec ∈ seen)) then
        collect_specs rest (attempted ++ [spec]) (spec :: seen)
      else collect_specs rest attempted seen
  end.

(** The specs [_generate_outlook_typelib] attempts, in order. *)
Definition attempted_specs (guid : string) (lcid major minor : Z)
    (specs : list typelib_spec) : list typelib_spec :=
  let '(attempted, seen) := collect_specs specs [] [] in
  let tuple_spec := SpecTuple guid lcid major minor in
  if negb (bool_decide (tuple_spec ∈ seen)) then attempted ++ [tuple_spec]
  else attempted.

Section Makepy.

(** [repr(spec)], Python's own, taken as it comes: the listener only writes
    it into the cleanup log. *)
Variable repr : typelib_spec -> string.

(** The environment in force when the line about a spec is logged (each
    spec is run, and logged about, at most once per call). *)
Variable env_at : typelib_spec -> Env.

Definition generated_message (spec : typelib_spec) : string :=
  "makepy generated Outlook typelib for spec " +:+ repr spec.

Definition failed_message (spec : typelib_spec) (err : exn) : string :=
  "makepy failed for " +:+ repr spec +:+ ": " +:+ exn_msg err.

(** The second loop of [_generate_outlook_typelib]: the body of the [try]
    ends in [return True]; the handler logs and lets the loop go on. *)
Fixpoint try_specs (makepy_module : makepy)
    (attempted : list typelib_spec) : M bool :=
  match attempted with
  | [] => ret false
  | spec :: rest =>
      returned <-
        try_except
          (GenerateFromTypeLibSpec makepy_module spec ;;
           _log_com_message (env_at spec) (generated_message spec) ;;
           ret true)
          (fun err =>
             _log_com_message (env_at spec) (failed_message spec err) ;;
             ret false) ;;
      if returned : bool then ret true else try_specs makepy_module rest
  end.

Definition _generate_outlook_typelib (guid : string) (lcid major minor : Z)
    (specs : list typelib_spec) (makepy_module : makepy) : M bool :=
  try_specs makepy_module (attempted_specs guid lcid major minor specs).

End Makepy.

(** ** Vocabulary of the properties *)

(** *** Items, paths and records *)

(** The [Class] of the item can be read and is not 43 ([olMailItem]); an
    item without the attribute reads as [None]. *)
Definition class_is_not_mail (item : Item) : Prop :=
  match Class item with
  | Absent => True
  | Has c => c ≠ 43
  | Broken _ => False
  end.

(** The path of a job's copy in the success archive. *)
Definition archive_path (json_path : Path) : Path :=
  (ARCHIVE_SUCCESS_DIR, path_name json_path).

(** The path the writer gives the job under the clock readings of [env]. *)
Definition job_path (env : Env) : Path :=
  (QUEUE_DIR, job_filename (strftime_now env) (time_ns env)).

(** The mirror into the Downloads directory fails: creating the directory
    or the copy itself raises [OSError(msg)]. *)
Definition backup_fails (env : Env) (msg : string) : Prop :=
  io_error env (OpMkdir DOWNLOADS_DIR) = Some msg \/
  (io_error env (OpMkdir DOWNLOADS_DIR) = None /\
   io_error env (OpCopy (job_path env) (DOWNLOADS_DIR, path_name (job_path env))) = Some msg).

(** [subj] contains the phrase [k] up to the case of letters: once both
    are put in lower case, [k] occurs in [subj] (as [x ++ k ++ y]). *)
Definition contains_ignoring_case (k subj : string) : Prop :=
  exists x y, Str.lower subj = x +:+ Str.lower k +:+ y.

Definition has_keyword (subj : string) : Prop :=
  exists k, k ∈ KEYWORDS /\ contains_ignoring_case k subj.

(** Reading the attribute does not raise (a missing attribute reads as the
    default of [getattr]). *)
Definition readable {A} (a : attr A) : Prop :=
  match a with
  | Broken _ => False
  | _ => True
  end.

Definition attr_or {A} (default : A) (a : attr A) : A :=
  match a with
  | Has v => v
  | _ => default
  end.

(** The [received_utc] text the handler derives from [ReceivedTime]. *)
Definition received_utc_of (recv : com_date) : string :=
  match recv with
  | PyDateTime y mo d h mi s =>
      Str.format_0d 4 y +:+ "-" +:+ Str.format_0d 2 mo +:+ "-" +:+ Str.format_0d 2 d
      +:+ "T" +:+ Str.format_0d 2 h +:+ ":" +:+ Str.format_0d 2 mi +:+ ":"
      +:+ Str.format_0d 2 s +:+ "Z"
  | NoStrftime text _ => text
  end.

(** The record the handler writes for a mail item. *)
Definition record_of (item : Item) (recv : com_date) : list (string * string) :=
  payload_of (attr_or "" (Subject item)) (attr_or "" (SenderEmailAddress item))
             (received_utc_of recv) (attr_or "" (Body item)) (attr_or "" (EntryID item)).

(** The error log of the handler can be appended to. *)
Definition errors_log_writable (env : Env) : Prop :=
  io_error env (OpAppend ERRORS_LOG) = None.

(** *** The dispatcher's history

    A history [h] is read by position: an event at a smaller index
    happened earlier. *)

(** Tickets are handed out in the order of the submissions. *)
Definition submit_order (h : list event) : Prop :=
  forall (i1 i2 t1 t2 : nat),
    (i1 < i2)%nat -> h !! i1 = Some (EvSubmit t1) -> h !! i2 = Some (EvSubmit t2) ->
    (t1 < t2)%nat.

(** A work item has started before it is done. *)
Definition started_first (h : list event) : Prop :=
  forall (d t : nat), h !! d = Some (EvDone t) ->
    exists s, (s < d)%nat /\ h !! s = Some (EvStart t).

(** When a work item starts, every work item with a smaller ticket is
    done. *)
Definition serialized (h : list event) : Prop :=
  forall (j t2 : nat), h !! j = Some (EvStart t2) ->
    forall t1, (t1 < t2)%nat -> exists d, (d < j)%nat /\ h !! d = Some (EvDone t1).

(** The pool of a world, with [d] work items done and [r] in flight, and
    what the history says about it. *)
Definition pool_accounts (pool : Pool) (h : list event) (d r : nat) : Prop :=
  (r <= 1)%nat /\
  ticket <$> in_flight pool = seq d r /\
  ticket <$> work_queue pool = seq (d + r) (issued pool - (d + r)) /\
  (d + r <= issued pool)%nat /\
  (forall t, EvDone t ∈ h <-> (t < d)%nat) /\
  (forall t, EvStart t ∈ h <-> (t < d + r)%nat) /\
  (forall t, EvSubmit t ∈ h <-> (t < issued pool)%nat).

(** The invariant of the running system. *)
Definition dispatcher_inv (w : World) : Prop :=
  submit_order (history w) /\ started_first (history w) /\ serialized (history w) /\
  match executor w with
  | None => history w = []
  | Some pool => max_workers pool = 1%nat /\ exists d r, pool_accounts pool (history w) d r
  end.

(** A computation that leaves the pool and the history alone. *)
Definition quiet {A} (c : M A) : Prop :=
  forall w, executor (snd (c w)) = executor w /\ history (snd (c w)) = history w.

(** A computation that keeps the invariant. *)
Definition keeps {A} (c : M A) : Prop :=
  forall w, dispatcher_inv w -> dispatcher_inv (snd (c w)).

(** *** Reading a job file back

    The inverse of [json_dumps] on the texts it writes, used to say what
    record a job file holds. *)

Definition unescape_char (e : ascii) : option ascii :=
  let n := N_of_ascii e in
  if (n =? 34)%N then Some dquote
  else if (n =? 92)%N then Some backslash
  else if (n =? 110)%N then Some (ascii_of_N 10)
  else if (n =? 114)%N then Some (ascii_of_N 13)
  else if (n =? 116)%N then Some (ascii_of_N 9)
  else if (n =? 98)%N then Some (ascii_of_N 8)
  else if (n =? 102)%N then Some (ascii_of_N 12)
  else None.

Definition hex_val (c : ascii) : option N :=
  let n := N_of_ascii c in
  if ((48 <=? n) && (n <=? 57))%N then Some (n - 48)%N
  else if ((97 <=? n) && (n <=? 102))%N then Some (n - 87)%N
  else None.

(** The four hexadecimal digits after a backslash and a [u], for the code
    points below 256. *)
Definition unescape_hex4 (h1 h2 h3 h4 : ascii) : option ascii :=
  match hex_val h1, hex_val h2, hex_val h3, hex_val h4 with
  | Some 0%N, Some 0%N, Some a, Some b => Some (ascii_of_N (16 * a + b))
  | _, _, _, _ => None
  end.

Definition cons_fst (c : ascii) (r : option (string * string)) : option (string * string) :=
  match r with
  | Some (s, rest) => Some (String c s, rest)
  | None => None
  end.

(** The characters of a string literal after its opening quote: the text
    up to the closing quote, decoded, and what follows the literal. *)
Fixpoint json_string_body (s : string) : option (string * string) :=
  match s with
  | EmptyString => None
  | String c r =>
      if decide (c = dquote) then Some ("", r)
      else if decide (c = backslash) then
        match r with
        | String e r' =>
            if decide (e = "u"%char) then
              match r' with
              | String h1 (String h2 (String h3 (String h4 r''))) =>
                  match unescape_hex4 h1 h2 h3 h4 with
                  | Some x => cons_fst x (json_string_body r'')
                  | None => None
                  end
              | _ => None
              end
            else
              match unescape_char e with
              | Some x => cons_fst x (json_string_body r')
              | None => None
              end
        | EmptyString => None
        end
      else cons_fst c (json_string_body r)
  end.

Definition json_read_string (s : string) : option (string * string) :=
  match s with
  | String c r => if decide (c = dquote) then json_string_body r else None
  | EmptyString => None
  end.

Fixpoint strip_prefix (k s : string) : option string :=
  match k with
  | EmptyString => Some s
  | String a k' =>
      match s with
      | String b s' => if decide (a = b) then strip_prefix k' s' else None
      | EmptyString => None
      end
  end.

(** The members of an object as [json_dumps] lays them out, up to the
    closing brace. *)
Fixpoint json_members (fuel : nat) (s : string) : option (list (string * string)) :=
  match fuel with
  | O => None
  | S f =>
      match strip_prefix "  " s with
      | None => None
      | Some s1 =>
          match json_read_string s1 with
          | None => None
          | Some (k, s2) =>
              match strip_prefix ": " s2 with
              | None => None
              | Some s3 =>
                  match json_read_string s3 with
                  | None => None
                  | Some (v, s4) =>
                      match strip_prefix ("," +:+ nl) s4 with
                      | Some s5 =>
                          match json_members f s5 with
                          | Some rest => Some ((k, v) :: rest)
                          | None => None
                          end
                      | None =>
                          if decide (s4 = nl +:+ "}") then Some [(k, v)] else None
                      end
                  end
              end
          end
      end
  end.

(** [json.loads(text)] for an object of strings. *)
Definition json_loads (text : string) : option (list (string * string)) :=
  if decide (text = "{}") then Some []
  else
    match strip_prefix ("{" +:+ nl) text with
    | Some s => json_members (String.length text) s
    | None => None
    end.

(** *** More vocabulary: the dispatcher *)

(** Two worlds with the same pool and the same history. *)
Definition same_dispatch (w w' : World) : Prop :=
  executor w' = executor w /\ history w' = history w.

(** A computation that, as far as the pool and the history go, does nothing
    or does what one [enqueue_worker] does. *)
Definition submits_at_most_once {A} (c : M A) : Prop :=
  forall w,
    same_dispatch w (snd (c w)) \/
    exists p w0,
      same_dispatch w w0 /\
      same_dispatch (snd ((ensure_worker_executor ;; submit p) w0)) (snd (c w)).

(** A work item starts only after it was submitted. *)
Definition submitted_first (h : list event) : Prop :=
  forall (j t : nat), h !! j = Some (EvStart t) ->
    exists i, (i < j)%nat /\ h !! i = Some (EvSubmit t).

(** The ticket the next submission gets. *)
Definition next_ticket (w : World) : nat :=
  match executor w with
  | Some pool => issued pool
  | None => 0%nat
  end.

(** *** More vocabulary: names and files *)

(** The number of ASCII characters of a text. *)
Fixpoint ascii_count (s : string) : nat :=
  match s with
  | EmptyString => 0
  | String c r => (if (N_of_ascii c <? 128)%N then 1 else 0) + ascii_count r
  end.

(** [a < b] for two strings, as Python compares them. *)
Definition str_lt (a b : string) : Prop := String.compare a b = Lt.

(** A directory together with its parents: what a [mkdir] with
    [parents=True] that goes through makes sure of. *)
Definition tree (d : string) : gset string := {[ d ]} ∪ list_to_set (parents d).

(** The mirror of a job file in the Downloads directory. *)
Definition mirror_path (env : Env) : Path :=
  (DOWNLOADS_DIR, path_name (job_path env)).

(** Every call of the payload writer goes through. *)
Definition writer_calls_succeed (env : Env) : Prop :=
  io_error env (OpMkdir QUEUE_DIR) = None /\
  io_error env (OpWriteText (job_path env)) = None /\
  io_error env (OpMkdir DOWNLOADS_DIR) = None /\
  io_error env (OpCopy (job_path env) (mirror_path env)) = None.


(** *** More vocabulary: the makepy runs *)

(** A makepy whose outcome for a spec is fixed, and which leaves the world
    of the hand-off alone. *)
Definition makepy_of (f : typelib_spec -> option exn) : makepy :=
  {| GenerateFromTypeLibSpec := fun spec w =>
       match f spec with
       | None => (Returns tt, w)
       | Some err => (Raises err, w)
       end |}.

(** The line [_log_com_message] writes for a message. *)
Definition cleanup_line (env : Env) (message : string) : string :=
  ctime env +:+ " " +:+ message +:+ nl.

(** The lines of the cleanup log. *)
Definition cleanup_log (w : World) : list string :=
  default [] (logs w !! CLEANUP_LOG).

(** The line of a failed makepy run, when [f] makes it fail. *)
Definition failed_line (repr : typelib_spec -> string) (env_at : typelib_spec -> Env)
    (f : typelib_spec -> option exn) (spec : typelib_spec) : string :=
  match f spec with
  | Some err => cleanup_line (env_at spec) (failed_message repr spec err)
  | None => ""
  end.

(** The line of a makepy run that went through. *)
Definition generated_line (repr : typelib_spec -> string) (env_at : typelib_spec -> Env)
    (spec : typelib_spec) : string :=
  cleanup_line (env_at spec) (generated_message repr spec).


(** ** Concrete scenarios *)

Module Scenario.

(** An environment in which every call goes through and the worker
    process exits 0. *)
Definition calm : Env :=
  {| io_error := fun _ => None;
     strftime_now := "20251031_120000";
     time_ns := 1761912000123456789;
     ctime := "Fri Oct 31 12:00:00 2025";
     sys_executable := "C:\Python312\python.exe";
     os_environ := {[ "ESKER_DRYRUN" := "1" ]};
     subprocess_run := fun _ _ _ => Completed 0 "done" "" |}.

Definition vendor_mail : Item :=
  {| Class := Has 43;
     Subject := Has "ESKER VENDOR EMAIL - batch 12";
     SenderEmailAddress := Has "ap@vendor.example";
     Body := Has "vendor_number: 1000338436";
     ReceivedTime := Has (PyDateTime 2025 10 31 12 0 0);
     EntryID := Has "00000000A1B2" |}.

(** A meeting request (class 26) with a matching subject. *)
Definition meeting : Item :=
  {| Class := Has 26;
     Subject := Has "ESKER VENDOR EMAIL - sync";
     SenderEmailAddress := Has "ap@vendor.example";
     Body := Has "";
     ReceivedTime := Has (PyDateTime 2025 10 31 12 0 0);
     EntryID := Has "00000000A1B3" |}.

Definition job : Path := (QUEUE_DIR, "20251031_120000_123456789.json").

(** The world after the writer has put one job file into the queue. *)
Definition queued : World :=
  with_files {[ job := json_dumps [("subject", "esker gl email")] ]} initial_world.

(** The worker process exits with code 3. *)
Definition worker_exits_3 : Env :=
  {| io_error := io_error calm; strftime_now := strftime_now calm;
     time_ns := time_ns calm; ctime := ctime calm;
     sys_executable := sys_executable calm; os_environ := os_environ calm;
     subprocess_run := fun _ _ _ => Completed 3 "" "login failed" |}.


(** The interpreter of the worker command is missing, and the runner log
    cannot be appended to (another process holds it). *)
Definition no_interpreter_log_locked : Env :=
  {| io_error := fun op =>
       match op with
       | OpAppend _ => Some "[Errno 13] Permission denied"
       | _ => None
       end;
     strftime_now := strftime_now calm;
     time_ns := time_ns calm; ctime := ctime calm;
     sys_executable := "C:\gone\python.exe"; os_environ := os_environ calm;
     subprocess_run := fun _ _ _ =>
       SpawnError (Exn OSError "[WinError 2] The system cannot find the file specified") |}.

(** The log files of the temp directory cannot be appended to. *)
Definition logs_locked : Env :=
  {| io_error := fun op =>
       match op with
       | OpAppend _ => Some "[Errno 13] Permission denied"
       | _ => None
       end;
     strftime_now := strftime_now calm;
     time_ns := time_ns calm; ctime := ctime calm;
     sys_executable := sys_executable calm; os_environ := os_environ calm;
     subprocess_run := subprocess_run calm |}.

(** The job file cannot be deleted (it is still held open). *)
Definition delete_denied : Env :=
  {| io_error := fun op =>
       match op with
       | OpUnlink _ => Some "[WinError 32] The process cannot access the file"
       | _ => None
       end;
     strftime_now := strftime_now calm;
     time_ns := time_ns calm; ctime := ctime calm;
     sys_executable := sys_executable calm; os_environ := os_environ calm;
     subprocess_run := subprocess_run calm |}.

(** Nothing can be copied into the Downloads directory. *)
Definition backup_denied : Env :=
  {| io_error := fun op =>
       match op with
       | OpCopy _ dst =>
           if decide (path_parent dst = DOWNLOADS_DIR)
           then Some "[Errno 13] Permission denied" else None
       | _ => None
       end;
     strftime_now := strftime_now calm;
     time_ns := time_ns calm; ctime := ctime calm;
     sys_executable := sys_executable calm; os_environ := os_environ calm;
     subprocess_run := subprocess_run calm |}.

(** A mail item with a matching subject whose [ReceivedTime] cannot be
    read: the COM call fails. *)
Definition malformed_mail : Item :=
  {| Class := Has 43;
     Subject := Has "Esker GL email 7";
     SenderEmailAddress := Has "gl@vendor.example";
     Body := Has "";
     ReceivedTime := Broken (Exn ComError "(-2147467259, 'Unspecified error', None, None)");
     EntryID := Has "00000000A1B4" |}.

(** A second clock reading, 41 nanoseconds after that of [calm] and in the
    same second. *)
Definition calm_later : Env :=
  {| io_error := io_error calm; strftime_now := strftime_now calm;
     time_ns := time_ns calm + 41; ctime := ctime calm;
     sys_executable := sys_executable calm; os_environ := os_environ calm;
     subprocess_run := subprocess_run calm |}.

(** A mail item whose [ReceivedTime] is a COM time value without a
    [strftime] method; its [str()] is the text shown. *)
Definition legacy_time_mail : Item :=
  {| Class := Has 43;
     Subject := Has "esker vendor email";
     SenderEmailAddress := Has "ap@vendor.example";
     Body := Has "";
     ReceivedTime :=
       Has (NoStrftime "10/31/25 12:00:00"
              (Exn AttributeError "'time' object has no attribute 'strftime'"));
     EntryID := Has "00000000A1B5" |}.

(** Two mails arrive, the pool thread takes the first job, finishes it, and
    takes the second. *)
Definition first_queued : World :=
  snd (OnItemAdd calm vendor_mail initial_world).
Definition both_queued : World :=
  snd (OnItemAdd calm_later vendor_mail first_queued).
Definition first_started : World :=
  default both_queued (pool_start both_queued).
Definition first_done : World :=
  default first_started
    (pool_finish calm {| ticket := 0; task_path := job_path calm |} first_started).
Definition second_started : World :=
  default first_done (pool_start first_done).

End Scenario.

(** ** Further scenarios *)

Module Cases.

(** The worker process exits 0 although the job file is gone (the queue is
    empty). *)
Definition job_gone : World := initial_world.

(** The archive directory cannot be created, and the worker exits 0. *)
Definition archive_denied : Env :=
  {| io_error := fun op =>
       match op with
       | OpMkdir d =>
           if decide (d = ARCHIVE_SUCCESS_DIR)
           then Some "[Errno 13] Permission denied" else None
       | _ => None
       end;
     strftime_now := strftime_now Scenario.calm;
     time_ns := time_ns Scenario.calm; ctime := ctime Scenario.calm;
     sys_executable := sys_executable Scenario.calm;
     os_environ := os_environ Scenario.calm;
     subprocess_run := subprocess_run Scenario.calm |}.

(** A mail item without a [Subject] attribute. *)
Definition no_subject : Item :=
  {| Class := Has 43;
     Subject := Absent;
     SenderEmailAddress := Has "ap@vendor.example";
     Body := Has "vendor_number: 1000338436";
     ReceivedTime := Has (PyDateTime 2025 10 31 12 0 0);
     EntryID := Has "00000000A1B6" |}.

(** A mail item with a matching subject and without [ReceivedTime]. *)
Definition no_received_time : Item :=
  {| Class := Has 43;
     Subject := Has "esker gl email";
     SenderEmailAddress := Absent;
     Body := Absent;
     ReceivedTime := Absent;
     EntryID := Absent |}.

(** [repr] on specs whose names are printable ASCII without quotes and
    backslashes, as the module's own are. *)
Definition repr_plain (spec : typelib_spec) : string :=
  match spec with
  | SpecName name => "'" +:+ name +:+ "'"
  | SpecTuple guid lcid major minor =>
      "('" +:+ guid +:+ "', " +:+ str_of_Z lcid +:+ ", " +:+ str_of_Z major
      +:+ ", " +:+ str_of_Z minor +:+ ")"
  end.

(** The clock moves on between the log lines. *)
Definition clock_at (spec : typelib_spec) : Env :=
  match spec with
  | SpecName "Outlook.Application" => Scenario.calm
  | _ => Scenario.calm_later
  end.

(** The names are not registered on the machine; the run on the tuple goes
    through. *)
Definition names_unregistered (spec : typelib_spec) : option exn :=
  match spec with
  | SpecName _ => Some (Exn ComError "Library not registered.")
  | SpecTuple _ _ _ _ => None
  end.

End Cases.

(** * Properties of the hand-off *)

(** ** Running the computations *)

Ltac unfold_py :=
  unfold bind, ret, raise, try_except, try_except_OSError_pass,
    mkdir, write_text, copy2, unlink, log_append, print, os_call,
    getattr, getattr_default.

Lemma bind_returns {A B} (c : M A) (k : A -> M B) w a w' :
  c w = (Returns a, w') -> bind c k w = k a w'.
Proof. intros H. unfold bind. by rewrite H. Qed.


Lemma try_except_returns {A} (c : M A) h w a w' :
  c w = (Returns a, w') -> try_except c h w = (Returns a, w').
Proof. intros H. unfold try_except. by rewrite H. Qed.


(** ** Substrings *)

Lemma startswith_app k s : Str.startswith k (k +:+ s) = true.
Proof.
  induction k as [|a k IH]; [by destruct s|].
  change (String a k +:+ s) with (String a (k +:+ s)).
  cbn. by rewrite decide_True.
Qed.

Lemma contains_here k b : Str.contains k (k +:+ b) = true.
Proof. destruct (k +:+ b) eqn:E; cbn; rewrite <- E, startswith_app; done. Qed.

Lemma contains_later a k s :
  Str.contains k s = true -> Str.contains k (a +:+ s) = true.
Proof.
  intros H. induction a as [|c a IH]; [done|].
  change (String c a +:+ s) with (String c (a +:+ s)).
  cbn. rewrite IH. apply orb_true_r.
Qed.

Lemma app_cons c a s : String c a +:+ s = String c (a +:+ s).
Proof. reflexivity. Qed.

Lemma app_empty_l s : "" +:+ s = s.
Proof. reflexivity. Qed.

Lemma startswith_inv k s :
  Str.startswith k s = true -> exists b, s = k +:+ b.
Proof.
  revert s. induction k as [|a k IH]; intros s H; [by exists s|].
  destruct s as [|c s]; [done|]. cbn in H.
  destruct (decide (a = c)) as [->|]; [|done].
  destruct (IH s H) as [b ->]. by exists b.
Qed.

Lemma contains_inv k s :
  Str.contains k s = true -> exists a b, s = a +:+ k +:+ b.
Proof.
  induction s as [|c s IH]; cbn; intros H.
  - rewrite orb_false_r in H. destruct (startswith_inv _ _ H) as [b ->].
    by exists "", b.
  - apply orb_true_iff in H as [H|H].
    + destruct (startswith_inv _ _ H) as [b ->]. by exists "", b.
    + destruct (IH H) as (a & b & ->). by exists (String c a), b.
Qed.

Lemma contains_iff k s :
  Str.contains k s = true <-> exists a b, s = a +:+ k +:+ b.
Proof.
  split; [apply contains_inv|].
  intros (a & b & ->). apply contains_later, contains_here.
Qed.



Lemma or_else_empty s : Str.or_else s "" = s.
Proof. unfold Str.or_else. by destruct (decide (s = "")) as [->|]. Qed.

(** ** Decimal formatting *)

Lemma length_app a b : String.length (a +:+ b) = (String.length a + String.length b)%nat.
Proof. induction a as [|c a IH]; [done|]. rewrite app_cons. cbn. by rewrite IH. Qed.

Lemma app_assoc_str a b c : (a +:+ b) +:+ c = a +:+ b +:+ c.
Proof. induction a as [|x a IH]; [done|]. rewrite !app_cons. by rewrite IH. Qed.


Lemma digit_val_char d : (d < 10)%N -> Str.digit_val (Str.digit_char d) = d.
Proof.
  intros H. unfold Str.digit_val, Str.digit_char.
  rewrite N_ascii_embedding by lia. lia.
Qed.

Lemma is_digit_char d : (d < 10)%N -> Str.is_digit (Str.digit_char d) = true.
Proof.
  intros H. unfold Str.is_digit, Str.digit_char.
  rewrite N_ascii_embedding by lia.
  apply andb_true_iff. split; apply N.leb_le; lia.
Qed.

Lemma all_digits_app a b :
  Str.all_digits (a +:+ b) = Str.all_digits a && Str.all_digits b.
Proof.
  induction a as [|c a IH]; [done|].
  rewrite app_cons. cbn. by rewrite IH, andb_assoc.
Qed.

Lemma dec_value_from_app acc a b :
  Str.dec_value_from acc (a +:+ b) = Str.dec_value_from (Str.dec_value_from acc a) b.
Proof.
  revert acc. induction a as [|c a IH]; intros acc; [done|].
  rewrite app_cons. cbn. apply IH.
Qed.

Lemma dec_digits_all_digits fuel n : Str.all_digits (Str.dec_digits fuel n) = true.
Proof.
  revert n. induction fuel as [|f IH]; intros n; [done|]. cbn.
  destruct (N.ltb_spec n 10).
  - cbn. by rewrite is_digit_char.
  - rewrite all_digits_app, IH. cbn.
    rewrite is_digit_char; [done|]. by apply N.mod_lt.
Qed.

Lemma dec_digits_length fuel n w :
  (n < 10 ^ N.of_nat w)%N -> (1 <= w)%nat ->
  (String.length (Str.dec_digits fuel n) <= w)%nat.
Proof.
  revert n w. induction fuel as [|f IH]; intros n w Hn Hw; cbn; [lia|].
  destruct (N.ltb_spec n 10); [cbn; lia|].
  rewrite length_app. cbn.
  destruct w as [|[|w]]; [lia| |].
  - cbn in Hn. lia.
  - assert (String.length (Str.dec_digits f (n / 10)) <= S w)%nat; [|lia].
    apply IH; [|lia].
    apply N.Div0.div_lt_upper_bound.
    replace (N.of_nat (S (S w))) with (N.succ (N.of_nat (S w))) in Hn by lia.
    by rewrite N.pow_succ_r' in Hn.
Qed.

Lemma dec_digits_value fuel n :
  (n < 10 ^ N.of_nat fuel)%N -> Str.dec_value (Str.dec_digits fuel n) = n.
Proof.
  unfold Str.dec_value.
  revert n. induction fuel as [|f IH]; intros n Hn.
  - cbn in Hn. cbn. lia.
  - cbn [Str.dec_digits]. destruct (N.ltb_spec n 10).
    + cbn. rewrite digit_val_char by done. lia.
    + rewrite dec_value_from_app. cbn.
      rewrite IH.
      * rewrite digit_val_char by (by apply N.mod_lt).
        pose proof (N.div_mod n 10). lia.
      * apply N.Div0.div_lt_upper_bound.
        replace (N.of_nat (S f)) with (N.succ (N.of_nat f)) in Hn by lia.
        by rewrite N.pow_succ_r' in Hn.
Qed.

Lemma of_N_value n : Str.dec_value (Str.of_N n) = n.
Proof.
  unfold Str.of_N. apply dec_digits_value.
  destruct (N.eq_dec n 0%N) as [->|Hn]; [done|].
  rewrite Nat2N.inj_succ, N2Nat.id.
  destruct (N.log2_spec n) as [_ Hlt]; [lia|].
  eapply N.lt_le_trans; [exact Hlt|].
  apply N.pow_le_mono_l. lia.
Qed.

Lemma repeat_zero_value k s acc :
  Str.dec_value_from acc (Str.repeat_char "0"%char k +:+ s)
  = Str.dec_value_from (acc * 10 ^ N.of_nat k)%N s.
Proof.
  revert acc. induction k as [|k IH]; intros acc.
  - cbn. f_equal. lia.
  - cbn [Str.repeat_char]. rewrite app_cons. cbn [Str.dec_value_from].
    rewrite IH. f_equal.
    replace (N.of_nat (S k)) with (N.succ (N.of_nat k)) by lia.
    rewrite N.pow_succ_r'. unfold Str.digit_val. cbn. lia.
Qed.

Lemma zfill_value w s : Str.dec_value (Str.zfill w s) = Str.dec_value s.
Proof. unfold Str.dec_value, Str.zfill. by rewrite repeat_zero_value. Qed.

Lemma repeat_char_length c k : String.length (Str.repeat_char c k) = k.
Proof. induction k as [|k IH]; [done|]. cbn. by rewrite IH. Qed.

Lemma repeat_zero_digits k : Str.all_digits (Str.repeat_char "0"%char k) = true.
Proof. induction k as [|k IH]; [done|]. cbn. by rewrite IH. Qed.

(** Formatting a number that is not negative loses nothing: the digits
    read back give the number. *)
Lemma format_0d_value w z :
  0 <= z -> Str.dec_value (Str.format_0d w z) = Z.to_N z.
Proof.
  intros Hz. unfold Str.format_0d.
  destruct (Z.ltb_spec z 0); [lia|].
  by rewrite zfill_value, of_N_value.
Qed.

(** A number of at most [w] digits is formatted as exactly [w] digits. *)
Lemma format_0d_fixed w z :
  0 <= z < 10 ^ Z.of_nat w -> (1 <= w)%nat ->
  String.length (Str.format_0d w z) = w /\ Str.all_digits (Str.format_0d w z) = true.
Proof.
  intros Hz Hw. unfold Str.format_0d.
  destruct (Z.ltb_spec z 0); [lia|].
  unfold Str.zfill, Str.of_N.
  set (s := Str.dec_digits _ _).
  assert (Hlen : (String.length s <= w)%nat).
  { apply dec_digits_length; [|done].
    apply N2Z.inj_lt. rewrite Z2N.id by lia.
    rewrite N2Z.inj_pow, nat_N_Z. cbn. lia. }
  split.
  - rewrite length_app, repeat_char_length. lia.
  - rewrite all_digits_app, repeat_zero_digits. apply dec_digits_all_digits.
Qed.

Lemma app_inv_tail_str a b c : a +:+ c = b +:+ c -> a = b.
Proof.
  revert b. induction a as [|x a IH]; intros [|y b] H.
  - done.
  - apply (f_equal String.length) in H.
    rewrite !length_app in H. cbn in H. lia.
  - apply (f_equal String.length) in H.
    rewrite !length_app in H. cbn in H. lia.
  - rewrite !app_cons in H. injection H as -> H. f_equal. by apply IH.
Qed.

(** Two job names with the same timestamp agree only if the sub-second
    parts of the nanosecond readings agree. *)
Lemma job_filename_inj ts n1 n2 :
  job_filename ts n1 = job_filename ts n2 ->
  n1 mod 1000000000 = n2 mod 1000000000.
Proof.
  unfold job_filename. intros H.
  apply String.app_inj in H. apply (String.app_inj "_") in H.
  apply app_inv_tail_str in H.
  pose proof (Z.mod_pos_bound n1 1000000000 ltac:(lia)) as H1.
  pose proof (Z.mod_pos_bound n2 1000000000 ltac:(lia)) as H2.
  apply (f_equal Str.dec_value) in H.
  rewrite !format_0d_value in H by lia.
  apply (f_equal Z.of_N) in H. by rewrite !Z2N.id in H by lia.
Qed.

(** ** Shapes *)

Lemma has_shape_app p1 p2 s1 s2 :
  has_shape p1 s1 = true -> has_shape p2 s2 = true ->
  has_shape (p1 ++ p2) (s1 +:+ s2) = true.
Proof.
  revert s1. induction p1 as [|[|a] p1 IH]; intros [|c s1] H1 H2; try done.
  - cbn in H1. apply andb_true_iff in H1 as [Hc H1].
    rewrite app_cons. cbn. by rewrite Hc, IH.
  - cbn in H1. apply andb_true_iff in H1 as [Hc H1].
    rewrite app_cons. cbn. by rewrite Hc, IH.
Qed.

Lemma has_shape_digits w s :
  String.length s = w -> Str.all_digits s = true ->
  has_shape (replicate w Digit) s = true.
Proof.
  revert s. induction w as [|w IH]; intros [|c s] Hl Hd; try done.
  cbn in *. apply andb_true_iff in Hd as [Hc Hd].
  rewrite Hc. apply IH; [lia | done].
Qed.

Lemma has_shape_format_0d w z :
  0 <= z < 10 ^ Z.of_nat w -> (1 <= w)%nat ->
  has_shape (replicate w Digit) (Str.format_0d w z) = true.
Proof.
  intros Hz Hw. destruct (format_0d_fixed w z Hz Hw).
  by apply has_shape_digits.
Qed.

(** ** Reading a job file back *)

Lemma json_string_body_escape_char c rest :
  json_string_body (json_escape_char c +:+ rest) = cons_fst c (json_string_body rest).
Proof. destruct c as [[] [] [] [] [] [] [] []]; reflexivity. Qed.

Lemma json_string_body_escape s rest :
  json_string_body (json_escape s +:+ String dquote rest) = Some (s, rest).
Proof.
  induction s as [|c s IH]; [reflexivity|].
  cbn [json_escape]. rewrite app_assoc_str, json_string_body_escape_char.
  by rewrite IH.
Qed.

Lemma json_read_string_json_string s rest :
  json_read_string (json_string s +:+ rest) = Some (s, rest).
Proof.
  unfold json_string. rewrite app_cons. cbn [json_read_string].
  rewrite decide_True by done.
  by rewrite app_assoc_str, app_cons, app_empty_l, json_string_body_escape.
Qed.

Lemma strip_prefix_app k s : strip_prefix k (k +:+ s) = Some s.
Proof.
  induction k as [|a k IH]; [done|].
  rewrite app_cons. cbn. by rewrite decide_True.
Qed.

Lemma json_members_join d fuel :
  d ≠ [] -> (length d <= fuel)%nat ->
  json_members fuel
    (join ("," +:+ nl)
       (map (fun kv => "  " +:+ json_string (fst kv) +:+ ": " +:+ json_string (snd kv)) d)
     +:+ nl +:+ "}")
  = Some d.
Proof.
  revert fuel. induction d as [|[k v] d IH]; intros fuel Hne Hlen; [done|].
  destruct fuel as [|fuel]; [cbn in Hlen; lia|].
  cbn [json_members]. destruct d as [|kv d].
  - cbn [map join fst snd].
    rewrite !app_assoc_str, strip_prefix_app, json_read_string_json_string,
      strip_prefix_app, json_read_string_json_string.
    by rewrite decide_True.
  - cbn [map join fst snd] in *.
    rewrite !app_assoc_str, strip_prefix_app, json_read_string_json_string,
      strip_prefix_app, json_read_string_json_string.
    rewrite <- (app_assoc_str "," nl), strip_prefix_app.
    rewrite <- !app_assoc_str in *. rewrite IH; [done|done|cbn in *; lia].
Qed.

Lemma join_length sep (l : list string) :
  (forall s, s ∈ l -> (1 <= String.length s)%nat) ->
  (length l <= String.length (join sep l))%nat.
Proof.
  induction l as [|x [|y l] IH]; intros Hl; [cbn; lia| |].
  - cbn. apply Hl. by apply list_elem_of_here.
  - change (join sep (x :: y :: l)) with (x +:+ sep +:+ join sep (y :: l)).
    rewrite !length_app. cbn [length].
    assert (1 <= String.length x)%nat by (apply Hl; apply list_elem_of_here).
    assert (S (length l) <= String.length (join sep (y :: l)))%nat; [|lia].
    apply IH. intros s Hs. apply Hl. by apply list_elem_of_further.
Qed.

(** What [json_dumps] writes reads back as the record. *)
Lemma json_loads_dumps d : json_loads (json_dumps d) = Some d.
Proof.
  destruct d as [|kv d]; [reflexivity|].
  unfold json_loads, json_dumps.
  rewrite decide_False by (intros H; discriminate H).
  rewrite <- (app_assoc_str "{" nl), strip_prefix_app.
  apply json_members_join; [done|].
  rewrite !length_app.
  set (line := fun kv : string * string =>
                 "  " +:+ json_string (fst kv) +:+ ": " +:+ json_string (snd kv)).
  assert (length (map line (kv :: d))
          <= String.length (join ("," +:+ nl) (map line (kv :: d))))%nat as Hlen.
  { apply join_length. intros s (x & -> & _)%list_elem_of_fmap_1.
    unfold line. rewrite length_app. cbn. lia. }
  rewrite length_map in Hlen. lia.
Qed.
Example lower_ex : Str.lower "ESKER Vendor eMail [12]" = "esker vendor email [12]".
Proof. reflexivity. Qed.

(** The Kelvin sign lowers to [k]; the dotted capital I to [i] and a
    combining dot. *)
Example lower_kelvin_ex :
  Str.lower (String (ascii_of_N 226) (String (ascii_of_N 132) (String (ascii_of_N 170) "ELVIN")))
  = "kelvin" /\
  Str.lower (String (ascii_of_N 196) (String (ascii_of_N 176) "Z"))
  = String "i" (String (ascii_of_N 204) (String (ascii_of_N 135) "z")).
Proof. split; reflexivity. Qed.

Example parents_ex :
  parents QUEUE_DIR
  = ["C:\Users\john.tan\esker"; "C:\Users\john.tan"; "C:\Users"; "C:\"] /\
  path_str (QUEUE_DIR, "a.json") = "C:\Users\john.tan\esker\queue\a.json" /\
  path_str ("C:\", "a.json") = "C:\a.json".
Proof. repeat split; reflexivity. Qed.

Example contains_ex :
  Str.contains "gl email" "re: esker gl email" = true /\
  Str.contains "gl email" "re: esker gl e-mail" = false.
Proof. split; reflexivity. Qed.

Example format_ex :
  Str.format_0d 9 5 = "000000005" /\ Str.format_0d 9 123456789 = "123456789" /\
  Str.format_0d 2 7 = "07" /\ Str.format_0d 4 12345 = "12345" /\
  Str.format_0d 4 (-5) = "-005" /\ Str.format_0d 9 0 = "000000000".
Proof. repeat split; reflexivity. Qed.


(** ** Items that are not mail *)

(** C10: [OnItemAdd] ignores an item whose [Class] is not 43, whatever its
    subject: it returns and leaves the world (files, directories, logs,
    console, pool) as it was. *)
Theorem OnItemAdd_ignores_other_classes (env : Env) (item : Item) (w : World) :
  class_is_not_mail item ->
  OnItemAdd env item w = (Returns tt, w).
Proof.
  unfold class_is_not_mail, OnItemAdd, OnItemAdd_try. intros Hc.
  apply try_except_returns.
  destruct (Class item) as [|c|e]; [| |done]; cbn.
  - done.
  - unfold bind; cbn. rewrite bool_decide_false; [done|congruence].
Qed.

Lemma OnItemAdd_ignores_other_classes_witness :
  class_is_not_mail Scenario.meeting /\
  OnItemAdd Scenario.calm Scenario.meeting initial_world = (Returns tt, initial_world).
Proof.
  split; [cbn; lia|].
  apply (OnItemAdd_ignores_other_classes Scenario.calm Scenario.meeting initial_world).
  cbn; lia.
Defined.

(** ** The worker runner *)

(** C3: when the worker process exits with a nonzero code, [run_worker]
    (and [worker_task] around it) leaves every file as it was: the job file
    stays in the queue with the same content, and nothing is added to the
    archive; no directory is created either.  This holds whatever
    operating-system call fails on the way. *)
Theorem run_worker_nonzero_touches_no_file
    (env : Env) (json_path : Path) (w : World) (rc : Z) (out err : string) :
  worker_result env json_path = Completed rc out err ->
  rc ≠ 0 ->
  files (snd (run_worker env json_path w)) = files w /\
  dirs (snd (run_worker env json_path w)) = dirs w /\
  files (snd (worker_task env json_path w)) = files w /\
  dirs (snd (worker_task env json_path w)) = dirs w.
Proof.
  intros Hres Hrc.
  assert (Hz : (rc =? 0) = false) by lia.
  unfold worker_task, run_worker. rewrite Hres. unfold_py. cbn. rewrite Hz.
  destruct (io_error env (OpAppend RUNNER_LOG)); cbn;
    [destruct (io_error env (OpAppend RUNNER_LOG)); cbn|]; done.
Qed.

Lemma run_worker_nonzero_touches_no_file_witness :
  files (snd (run_worker Scenario.worker_exits_3 Scenario.job Scenario.queued))
    !! Scenario.job = Some (json_dumps [("subject", "esker gl email")]).
Proof.
  destruct (run_worker_nonzero_touches_no_file Scenario.worker_exits_3 Scenario.job
              Scenario.queued 3 "" "login failed") as [-> _];
    [reflexivity | lia | reflexivity].
Defined.



(** C4, at the failing input: the worker command cannot be started and
    the runner log cannot be appended to.  [worker_task] catches the error
    of the start, but the append in its handler is not guarded and raises
    in turn: the [OSError] of the append leaves [worker_task], and no
    failure line is logged.  (The job file is untouched, as the claim
    says.) *)
Lemma worker_task_spawn_error_escapes :
  worker_result Scenario.no_interpreter_log_locked Scenario.job
  = SpawnError (Exn OSError "[WinError 2] The system cannot find the file specified") /\
  fst (worker_task Scenario.no_interpreter_log_locked Scenario.job Scenario.queued)
  = Raises (Exn OSError "[Errno 13] Permission denied") /\
  logs (snd (worker_task Scenario.no_interpreter_log_locked Scenario.job Scenario.queued))
  = logs Scenario.queued /\
  files (snd (worker_task Scenario.no_interpreter_log_locked Scenario.job Scenario.queued))
  = files Scenario.queued.
Proof. repeat split; reflexivity. Qed.

(** C2, as the code has it: for a job of the queue directory whose worker
    process exits 0, and with the log append, the creation of the archive
    directory and the copy going through, [run_worker] returns normally, the
    archive directory exists, and the archive holds a copy of the job file
    under the same name with the same content.  The job file is then
    deleted from the queue directory; when the deletion raises [OSError] the
    error is swallowed and the job file stays where it was.  No other file
    changes. *)
Theorem run_worker_exit0_archives
    (env : Env) (json_path : Path) (w : World) (content out err : string) :
  worker_result env json_path = Completed 0 out err ->
  path_parent json_path = QUEUE_DIR ->
  files w !! json_path = Some content ->
  io_error env (OpAppend RUNNER_LOG) = None ->
  io_error env (OpMkdir ARCHIVE_SUCCESS_DIR) = None ->
  io_error env (OpCopy json_path (archive_path json_path)) = None ->
  fst (run_worker env json_path w) = Returns tt /\
  ARCHIVE_SUCCESS_DIR ∈ dirs (snd (run_worker env json_path w)) /\
  files (snd (run_worker env json_path w)) !! archive_path json_path = Some content /\
  files (snd (run_worker env json_path w)) !! json_path
    = match io_error env (OpUnlink json_path) with
      | None => None
      | Some _ => Some content
      end /\
  (forall q : Path, q ≠ json_path -> q ≠ archive_path json_path ->
     files (snd (run_worker env json_path w)) !! q = files w !! q).
Proof.
  intros Hres Hdir Hfile Hlog Hmk Hcp.
  assert (Hne : json_path ≠ archive_path json_path).
  { destruct json_path as [d n]. cbn in Hdir. subst d.
    unfold archive_path. cbn. intros [= H]. }
  unfold run_worker. rewrite Hres. unfold_py. cbn.
  rewrite Hlog. cbn. rewrite Hmk. cbn.
  fold (archive_path json_path).
  rewrite decide_False by done. rewrite Hfile, Hcp. cbn.
  rewrite lookup_insert_ne by done. rewrite Hfile.
  destruct (io_error env (OpUnlink json_path)) eqn:Hun; cbn.
  - split; [done|]. split; [set_solver|]. split; [by rewrite lookup_insert_eq|].
    split; [by rewrite lookup_insert_ne|].
    intros q _ Hq. by rewrite lookup_insert_ne.
  - split; [done|]. split; [set_solver|].
    split; [by rewrite lookup_delete_ne, lookup_insert_eq|].
    split; [by rewrite lookup_delete_eq|].
    intros q Hq1 Hq2. by rewrite lookup_delete_ne, lookup_insert_ne.
Qed.

Lemma run_worker_exit0_archives_witness :
  fst (run_worker Scenario.calm Scenario.job Scenario.queued) = Returns tt /\
  files (snd (run_worker Scenario.calm Scenario.job Scenario.queued)) !! Scenario.job = None.
Proof.
  destruct (run_worker_exit0_archives Scenario.calm Scenario.job Scenario.queued
              (json_dumps [("subject", "esker gl email")]) "done" "")
    as (Hr & _ & _ & Hq & _); try reflexivity.
  split; [exact Hr | exact Hq].
Defined.

(** C2, as stated, fails where the deletion is refused: the worker process
    exits 0, [run_worker] returns normally and the archive has the copy, but
    the job file is still in the queue directory. *)
Lemma run_worker_exit0_job_not_removed :
  worker_result Scenario.delete_denied Scenario.job = Completed 0 "done" "" /\
  fst (run_worker Scenario.delete_denied Scenario.job Scenario.queued) = Returns tt /\
  files (snd (run_worker Scenario.delete_denied Scenario.job Scenario.queued))
    !! archive_path Scenario.job = files Scenario.queued !! Scenario.job /\
  files (snd (run_worker Scenario.delete_denied Scenario.job Scenario.queued))
    !! Scenario.job ≠ None.
Proof. repeat split; try reflexivity. by vm_compute. Qed.

(** ** The payload writer *)




(** ** The subject filter *)

Lemma contains_lower_iff k subj :
  Str.lower k = k ->
  Str.contains k (Str.lower subj) = true <-> contains_ignoring_case k subj.
Proof.
  intros Hk. rewrite contains_iff. unfold contains_ignoring_case. by rewrite Hk.
Qed.

Lemma subject_hit_iff subj : subject_hit subj = true <-> has_keyword subj.
Proof.
  unfold subject_hit, has_keyword, KEYWORDS. rewrite or_else_empty. cbn.
  rewrite orb_false_r, orb_true_iff, !contains_lower_iff by reflexivity.
  split.
  - intros [H|H]; eexists; (split; [|exact H]); set_solver.
  - intros (k & Hk & H).
    apply elem_of_cons in Hk as [->|Hk]; [by left|].
    apply elem_of_cons in Hk as [->|Hk]; [by right|].
    by apply elem_of_nil in Hk.
Qed.

Example subject_hit_ex :
  subject_hit "Quarterly newsletter" = false /\
  subject_hit "ESKER VENDOR EMAIL - batch 12" = true /\
  subject_hit "Fwd: Esker GL Email (October)" = true /\
  subject_hit "esker vendor  email" = false.
Proof. repeat split; reflexivity. Qed.

(** ** The event handler on mail items *)

Lemma getattr_default_readable {A} (a : attr A) (d : A) w :
  readable a -> getattr_default a d w = (Returns (attr_or d a), w).
Proof. by destruct a. Qed.

Lemma recv_str_returns recv w :
  try_except (strftime_iso_z recv) (fun _ => ret (date_str recv)) w
  = (Returns (received_utc_of recv), w).
Proof. by destruct recv. Qed.

(** What is left of the [try] block for a mail item with a matching subject
    whose attributes can be read. *)
Lemma OnItemAdd_try_hit env item subj recv w :
  Class item = Has 43 ->
  Subject item = Has subj ->
  subject_hit subj = true ->
  readable (SenderEmailAddress item) -> readable (Body item) ->
  readable (EntryID item) ->
  ReceivedTime item = Has recv ->
  OnItemAdd_try env item w
  = (json_path <- write_temp_json env (record_of item recv) ;;
     print ("[listener] Triggered for: " +:+ subj +:+ " -> " +:+ path_str json_path) ;;
     enqueue_worker json_path) w.
Proof.
  intros Hc Hs Hhit Hsender Hbody Hentry Hrecv.
  unfold OnItemAdd_try, record_of. rewrite Hc, Hs, Hrecv.
  rewrite (bind_returns _ _ w (Some 43) w) by reflexivity.
  rewrite bool_decide_true by done. cbv beta iota delta [negb].
  rewrite (bind_returns _ _ w subj w) by reflexivity.
  rewrite Hhit. cbv beta iota.
  rewrite (bind_returns _ _ _ _ _ (getattr_default_readable _ _ _ Hsender)).
  rewrite (bind_returns _ _ _ _ _ (getattr_default_readable _ _ _ Hbody)).
  rewrite (bind_returns _ _ w recv w) by reflexivity.
  rewrite (bind_returns _ _ _ _ _ (recv_str_returns _ _)).
  rewrite (bind_returns _ _ _ _ _ (getattr_default_readable _ _ _ Hentry)).
  reflexivity.
Qed.

Lemma enqueue_worker_spec p w :
  fst (enqueue_worker p w) = Returns tt /\
  files (snd (enqueue_worker p w)) = files w /\
  dirs (snd (enqueue_worker p w)) = dirs w /\
  logs (snd (enqueue_worker p w)) = logs w.
Proof.
  unfold enqueue_worker, ensure_worker_executor, submit. unfold_py.
  destruct w as [f d l c [pool|] h]; cbn; done.
Qed.

(** With the queue directory and the job file writable, the writer leaves
    the serialized record at the job path and changes no other file of the
    queue directory, whether or not it returns. *)
Lemma write_temp_json_queue env data w :
  io_error env (OpMkdir QUEUE_DIR) = None ->
  io_error env (OpWriteText (job_path env)) = None ->
  files (snd (write_temp_json env data w)) !! job_path env = Some (json_dumps data) /\
  (forall q : Path, path_parent q = QUEUE_DIR -> q ≠ job_path env ->
     files (snd (write_temp_json env data w)) !! q = files w !! q) /\
  (forall p, fst (write_temp_json env data w) = Returns p -> p = job_path env).
Proof.
  intros Hmk Hwr. unfold write_temp_json. fold (job_path env).
  unfold_py. cbn. rewrite Hmk. cbn. rewrite Hwr. cbn.
  destruct (io_error env (OpMkdir DOWNLOADS_DIR)); cbn.
  { split; [by rewrite lookup_insert_eq|]. split; [|done].
    intros q _ Hq. by rewrite lookup_insert_ne. }
  rewrite decide_False by (intros [= H]).
  rewrite lookup_insert_eq.
  destruct (io_error env (OpCopy _ _)); cbn.
  { split; [by rewrite lookup_insert_eq|]. split; [|done].
    intros q _ Hq. by rewrite lookup_insert_ne. }
  split; [rewrite lookup_insert_ne by (intros [= H]); by rewrite lookup_insert_eq|].
  split; [|by intros p [= <-]].
  intros [d n] Hd Hq. cbn in Hd. subst d.
  rewrite lookup_insert_ne by (intros [= H]). by rewrite lookup_insert_ne.
Qed.

Lemma log_append_files env log line w :
  files (snd (log_append env log line w)) = files w.
Proof. unfold_py. by destruct (io_error env (OpAppend log)). Qed.

(** After the writer, the handler touches no file any more. *)
Lemma OnItemAdd_hit_files env item subj recv w :
  Class item = Has 43 ->
  Subject item = Has subj ->
  subject_hit subj = true ->
  readable (SenderEmailAddress item) -> readable (Body item) ->
  readable (EntryID item) ->
  ReceivedTime item = Has recv ->
  files (snd (OnItemAdd env item w))
  = files (snd (write_temp_json env (record_of item recv) w)).
Proof.
  intros Hc Hs Hhit Hsender Hbody Hentry Hrecv.
  unfold OnItemAdd, try_except.
  rewrite (OnItemAdd_try_hit env item subj recv w) by done.
  unfold bind at 1.
  destruct (write_temp_json env (record_of item recv) w) as [[p|e] w1];
    cbv beta iota.
  - set (w2 := with_console (console w1 ++
                   ["[listener] Triggered for: " +:+ subj +:+ " -> " +:+ path_str p]) w1).
    change (files (let (o, w') := enqueue_worker p w2 in
                   match o with
                   | Returns a => (Returns a, w')
                   | Raises e =>
                       log_append env ERRORS_LOG
                         (ctime env +:+ " OnItemAdd error: " +:+ exn_msg e +:+ nl) w'
                   end).2 = files w2).
    destruct (enqueue_worker_spec p w2) as (Hr & Hf & _).
    destruct (enqueue_worker p w2) as [[[]|e] w3]; cbn in *; done.
  - apply log_append_files.
Qed.



(** C5, as stated, fails: the subject of this mail item contains a keyword
    phrase, but its [ReceivedTime] cannot be read; the handler catches the
    error, logs it and writes no job file. *)
Lemma OnItemAdd_matching_subject_no_file :
  Class Scenario.malformed_mail = Has 43 /\
  Subject Scenario.malformed_mail = Has "Esker GL email 7" /\
  has_keyword "Esker GL email 7" /\
  fst (OnItemAdd Scenario.calm Scenario.malformed_mail initial_world) = Returns tt /\
  files (snd (OnItemAdd Scenario.calm Scenario.malformed_mail initial_world)) = ∅ /\
  executor (snd (OnItemAdd Scenario.calm Scenario.malformed_mail initial_world)) = None.
Proof.
  split; [reflexivity|]. split; [reflexivity|].
  split; [apply subject_hit_iff; reflexivity|].
  repeat split; reflexivity.
Qed.





(** C8, at the failing input: the [ReceivedTime] of a matching mail item
    cannot be read and the error log cannot be appended to.  The handler
    catches the COM error, but the append in its [except] block is not
    guarded and raises in turn: the [OSError] of the append leaves
    [OnItemAdd], and nothing is logged. *)
Lemma OnItemAdd_exception_escapes :
  fst (OnItemAdd_try Scenario.logs_locked Scenario.malformed_mail initial_world)
  = Raises (Exn ComError "(-2147467259, 'Unspecified error', None, None)") /\
  fst (OnItemAdd Scenario.logs_locked Scenario.malformed_mail initial_world)
  = Raises (Exn OSError "[Errno 13] Permission denied") /\
  logs (snd (OnItemAdd Scenario.logs_locked Scenario.malformed_mail initial_world)) = ∅.
Proof. repeat split; reflexivity. Qed.

Example pump_after_malformed_item :
  let w := snd (pump [(Scenario.calm, Scenario.malformed_mail);
                      (Scenario.calm, Scenario.vendor_mail)] initial_world) in
  logs w !! ERRORS_LOG
    = Some ["Fri Oct 31 12:00:00 2025 OnItemAdd error: (-2147467259, 'Unspecified error', None, None)" +:+ nl] /\
  files w !! job_path Scenario.calm
    = Some (json_dumps (record_of Scenario.vendor_mail (PyDateTime 2025 10 31 12 0 0))) /\
  history w = [EvSubmit 0%nat].
Proof. repeat split; reflexivity. Qed.

(** ** Job file names *)

(** C6: two records written under the same second-granularity timestamp,
    at nanosecond clock readings that differ and lie in the same second,
    get different file names; so the paths [write_temp_json] returns for
    them differ. *)
Theorem write_temp_json_names_distinct
    (env1 env2 : Env) (data1 data2 : list (string * string)) (w1 w2 : World) :
  strftime_now env1 = strftime_now env2 ->
  time_ns env1 / 1000000000 = time_ns env2 / 1000000000 ->
  time_ns env1 ≠ time_ns env2 ->
  job_filename (strftime_now env1) (time_ns env1)
    ≠ job_filename (strftime_now env2) (time_ns env2) /\
  (forall p1 p2,
     fst (write_temp_json env1 data1 w1) = Returns p1 ->
     fst (write_temp_json env2 data2 w2) = Returns p2 ->
     p1 ≠ p2).
Proof.
  intros Hts Hsec Hns.
  assert (Hname : job_filename (strftime_now env1) (time_ns env1)
                  ≠ job_filename (strftime_now env2) (time_ns env2)).
  { rewrite Hts. intros H%job_filename_inj.
    pose proof (Z.div_mod (time_ns env1) 1000000000 ltac:(lia)).
    pose proof (Z.div_mod (time_ns env2) 1000000000 ltac:(lia)).
    lia. }
  split; [done|].
  intros p1 p2 H1 H2.
  assert (Hret : forall env data w p,
             fst (write_temp_json env data w) = Returns p -> p = job_path env).
  { intros env data w p. unfold write_temp_json. fold (job_path env).
    unfold bind, ret.
    destruct (mkdir env QUEUE_DIR w) as [[[]|?] ?]; [|done].
    destruct (write_text env _ _ _) as [[[]|?] ?]; [|done].
    destruct (mkdir env DOWNLOADS_DIR _) as [[[]|?] ?]; [|done].
    destruct (copy2 env _ _ _) as [[[]|?] ?]; [|done].
    by intros [= <-]. }
  apply Hret in H1, H2. subst p1 p2. unfold job_path. congruence.
Qed.

Lemma write_temp_json_names_distinct_witness :
  fst (write_temp_json Scenario.calm [] initial_world)
    = Returns (QUEUE_DIR, "20251031_120000_123456789.json") /\
  fst (write_temp_json Scenario.calm_later [] initial_world)
    = Returns (QUEUE_DIR, "20251031_120000_123456830.json") /\
  job_filename (strftime_now Scenario.calm) (time_ns Scenario.calm)
    ≠ job_filename (strftime_now Scenario.calm_later) (time_ns Scenario.calm_later).
Proof.
  split; [reflexivity|]. split; [reflexivity|].
  apply (write_temp_json_names_distinct Scenario.calm Scenario.calm_later [] []
           initial_world initial_world); [reflexivity | reflexivity | by vm_compute].
Defined.

(** ** The job record *)

Lemma received_utc_of_datetime y mo d h mi s :
  valid_datetime y mo d h mi s ->
  is_iso8601_z (received_utc_of (PyDateTime y mo d h mi s)) = true.
Proof.
  intros (Hy & Hmo & Hd & Hh & Hmi & Hs).
  unfold is_iso8601_z, received_utc_of.
  change iso8601_z with
    (replicate 4 Digit ++ [Lit "-"%char] ++ replicate 2 Digit ++ [Lit "-"%char]
     ++ replicate 2 Digit ++ [Lit "T"%char] ++ replicate 2 Digit ++ [Lit ":"%char]
     ++ replicate 2 Digit ++ [Lit ":"%char] ++ replicate 2 Digit ++ [Lit "Z"%char]).
  repeat first
    [ apply has_shape_app
    | apply has_shape_format_0d; [cbn; lia | lia]
    | reflexivity ].
Qed.

(** C9, as the code has it: the job file [OnItemAdd] writes for a mail item
    reads back as a record that
    has exactly the five fields subject, sender_address, received_utc, body
    and entry_id, in this order, each a string read from the item.  The
    received_utc text is the item's [ReceivedTime] formatted as
    [YYYY-MM-DDTHH:MM:SSZ] when the value is a [datetime]; when its
    [strftime] raises, it is [str()] of the value, whatever that text is. *)
Theorem OnItemAdd_record_fields
    (env : Env) (item : Item) (subj : string) (recv : com_date) (w : World) :
  Class item = Has 43 ->
  Subject item = Has subj ->
  subject_hit subj = true ->
  readable (SenderEmailAddress item) -> readable (Body item) ->
  readable (EntryID item) ->
  ReceivedTime item = Has recv ->
  io_error env (OpMkdir QUEUE_DIR) = None ->
  io_error env (OpWriteText (job_path env)) = None ->
  (exists text,
     files (snd (OnItemAdd env item w)) !! job_path env = Some text /\
     text = json_dumps (record_of item recv) /\
     json_loads text = Some (record_of item recv)) /\
  record_of item recv
    = [("subject", subj);
       ("sender_address", attr_or "" (SenderEmailAddress item));
       ("received_utc", received_utc_of recv);
       ("body", attr_or "" (Body item));
       ("entry_id", attr_or "" (EntryID item))] /\
  match recv with
  | PyDateTime y mo d h mi s =>
      valid_datetime y mo d h mi s -> is_iso8601_z (received_utc_of recv) = true
  | NoStrftime text _ => received_utc_of recv = text
  end.
Proof.
  intros Hc Hs Hhit Hsender Hbody Hentry Hrecv Hmk Hwr.
  rewrite (OnItemAdd_hit_files env item subj recv w) by done.
  destruct (write_temp_json_queue env (record_of item recv) w Hmk Hwr) as (Hjob & _).
  split; [eexists; split; [exact Hjob|]; split; [done|apply json_loads_dumps]|].
  split.
  - unfold record_of, payload_of. by rewrite Hs.
  - destruct recv; [apply received_utc_of_datetime | done].
Qed.

Lemma OnItemAdd_record_fields_witness :
  (exists text,
     files (snd (OnItemAdd Scenario.calm Scenario.vendor_mail initial_world))
       !! job_path Scenario.calm = Some text /\
     json_loads text
     = Some (record_of Scenario.vendor_mail (PyDateTime 2025 10 31 12 0 0))) /\
  is_iso8601_z (received_utc_of (PyDateTime 2025 10 31 12 0 0)) = true.
Proof.
  destruct (OnItemAdd_record_fields Scenario.calm Scenario.vendor_mail
              "ESKER VENDOR EMAIL - batch 12" (PyDateTime 2025 10 31 12 0 0)
              initial_world) as ((text & Hfile & _ & Hload) & _ & H3); [done..|].
  split; [by exists text|]. apply H3. unfold valid_datetime. lia.
Defined.

(** C9, as stated, fails on the fallback of the handler: for a mail item
    whose [ReceivedTime] has no working [strftime], the record written to
    the queue directory carries [str()] of the value as received_utc, which
    is not of the form [YYYY-MM-DDTHH:MM:SSZ]. *)
Lemma OnItemAdd_record_received_utc_not_iso :
  files (snd (OnItemAdd Scenario.calm Scenario.legacy_time_mail initial_world))
    !! job_path Scenario.calm
  = Some (json_dumps [("subject", "esker vendor email");
                      ("sender_address", "ap@vendor.example");
                      ("received_utc", "10/31/25 12:00:00");
                      ("body", "");
                      ("entry_id", "00000000A1B5")]) /\
  json_loads (json_dumps [("subject", "esker vendor email");
                          ("sender_address", "ap@vendor.example");
                          ("received_utc", "10/31/25 12:00:00");
                          ("body", "");
                          ("entry_id", "00000000A1B5")])
  = Some [("subject", "esker vendor email");
          ("sender_address", "ap@vendor.example");
          ("received_utc", "10/31/25 12:00:00");
          ("body", "");
          ("entry_id", "00000000A1B5")] /\
  is_iso8601_z "10/31/25 12:00:00" = false.
Proof. repeat split; reflexivity. Qed.

(** ** The dispatcher *)

Section Dispatcher.
Local Open Scope nat_scope.

Lemma quiet_keeps {A} (c : M A) : quiet c -> keeps c.
Proof.
  intros Hq w Hinv. destruct (Hq w) as [He Hh].
  unfold dispatcher_inv in *. by rewrite He, Hh.
Qed.

Lemma quiet_ret {A} (a : A) : quiet (ret a).
Proof. by intros w. Qed.

Lemma quiet_raise {A} (e : exn) : quiet (@raise A e).
Proof. by intros w. Qed.

Lemma quiet_bind {A B} (c : M A) (k : A -> M B) :
  quiet c -> (forall a, quiet (k a)) -> quiet (bind c k).
Proof.
  intros Hc Hk w. unfold bind. specialize (Hc w).
  destruct (c w) as [[a|e] w1]; cbn in *; [|done].
  destruct (Hk a w1) as [He Hh]. destruct Hc as [He1 Hh1].
  by rewrite He, Hh.
Qed.

Lemma quiet_try_except {A} (c : M A) (h : exn -> M A) :
  quiet c -> (forall e, quiet (h e)) -> quiet (try_except c h).
Proof.
  intros Hc Hh w. unfold try_except. specialize (Hc w).
  destruct (c w) as [[a|e] w1]; cbn in *; [done|].
  destruct (Hh e w1) as [He Hhi]. destruct Hc as [He1 Hh1].
  by rewrite He, Hhi.
Qed.

Lemma quiet_try_except_OSError_pass (c : M unit) :
  quiet c -> quiet (try_except_OSError_pass c).
Proof.
  intros Hc w. unfold try_except_OSError_pass. specialize (Hc w).
  destruct (c w) as [[a|e] w1]; cbn in *; [done|].
  by destruct (is_OSError e).
Qed.

Lemma quiet_os_call env op f :
  (forall w, executor (f w) = executor w /\ history (f w) = history w) ->
  quiet (os_call env op f).
Proof. intros Hf w. unfold os_call. destruct (io_error env op); [done|apply Hf]. Qed.

Lemma quiet_mkdir env d : quiet (mkdir env d).
Proof. intros w. unfold mkdir. by destruct (io_error env (OpMkdir d)). Qed.

Lemma quiet_write_text env p s : quiet (write_text env p s).
Proof. by apply quiet_os_call. Qed.

Lemma quiet_copy2 env src dst : quiet (copy2 env src dst).
Proof.
  intros w. unfold copy2. destruct (decide (src = dst)); [done|].
  destruct (files w !! src); [|done]. by apply quiet_os_call.
Qed.

Lemma quiet_unlink env p : quiet (unlink env p).
Proof.
  intros w. unfold unlink. destruct (files w !! p); [|done]. by apply quiet_os_call.
Qed.

Lemma quiet_log_append env log line : quiet (log_append env log line).
Proof. by apply quiet_os_call. Qed.

Lemma quiet_print line : quiet (print line).
Proof. by intros w. Qed.

Lemma quiet_getattr_default {A} (a : attr A) (d : A) : quiet (getattr_default a d).
Proof. by destruct a. Qed.

Lemma quiet_getattr {A} name (a : attr A) : quiet (getattr name a).
Proof. by destruct a. Qed.

Lemma quiet_write_temp_json env data : quiet (write_temp_json env data).
Proof.
  unfold write_temp_json.
  repeat first
    [ apply quiet_bind; [|intros ?]
    | apply quiet_mkdir | apply quiet_write_text | apply quiet_copy2
    | apply quiet_ret ].
Qed.

Lemma quiet_run_worker env p : quiet (run_worker env p).
Proof.
  unfold run_worker.
  apply quiet_bind; [apply quiet_print|intros _].
  destruct (worker_result env p) as [e|rc out err]; [apply quiet_raise|].
  apply quiet_bind; [apply quiet_log_append|intros _].
  destruct (rc =? 0)%Z; [|apply quiet_print].
  repeat first
    [ apply quiet_bind; [|intros ?]
    | apply quiet_mkdir | apply quiet_copy2 | apply quiet_print
    | apply quiet_try_except_OSError_pass, quiet_unlink ].
Qed.

Lemma quiet_worker_task env p : quiet (worker_task env p).
Proof.
  apply quiet_try_except; [apply quiet_run_worker|].
  intros e. apply quiet_log_append.
Qed.

Lemma keeps_bind {A B} (c : M A) (k : A -> M B) :
  keeps c -> (forall a, keeps (k a)) -> keeps (bind c k).
Proof.
  intros Hc Hk w Hinv. unfold bind. specialize (Hc w Hinv).
  destruct (c w) as [[a|e] w1]; cbn in *; [|done]. by apply Hk.
Qed.

Lemma keeps_try_except {A} (c : M A) (h : exn -> M A) :
  keeps c -> (forall e, keeps (h e)) -> keeps (try_except c h).
Proof.
  intros Hc Hh w Hinv. unfold try_except. specialize (Hc w Hinv).
  destruct (c w) as [[a|e] w1]; cbn in *; [done|]. by apply Hh.
Qed.

(** *** Histories that grow by one event *)


Lemma submit_order_snoc h e :
  submit_order h ->
  (forall n, e = EvSubmit n -> forall t, EvSubmit t ∈ h -> t < n) ->
  submit_order (h ++ [e]).
Proof.
  intros Ho Hnew i1 i2 t1 t2 Hlt H1 H2.
  apply lookup_snoc_Some in H1 as [[Hi1 H1]|[-> _]];
    apply lookup_snoc_Some in H2 as [[Hi2 H2]|[-> He]]; try lia.
  - by apply (Ho i1 i2).
  - apply (Hnew t2); [done|]. by eapply list_elem_of_lookup_2.
Qed.

Lemma started_first_snoc h e :
  started_first h ->
  (forall t, e = EvDone t -> EvStart t ∈ h) ->
  started_first (h ++ [e]).
Proof.
  intros Hs Hnew d t Hd.
  apply lookup_snoc_Some in Hd as [[Hi Hd]|[-> He]].
  - destruct (Hs d t Hd) as (s & Hlt & Hs').
    exists s. split; [done|]. by apply lookup_app_l_Some.
  - apply Hnew, list_elem_of_lookup in He as [s Hs'].
    exists s. split; [by eapply lookup_lt_Some|]. by apply lookup_app_l_Some.
Qed.

Lemma serialized_snoc h e :
  serialized h ->
  (forall t2, e = EvStart t2 -> forall t1, t1 < t2 -> EvDone t1 ∈ h) ->
  serialized (h ++ [e]).
Proof.
  intros Hs Hnew j t2 Hj t1 Hlt.
  apply lookup_snoc_Some in Hj as [[Hi Hj]|[-> He]].
  - destruct (Hs j t2 Hj t1 Hlt) as (d & Hd & Hd').
    exists d. split; [done|]. by apply lookup_app_l_Some.
  - apply (Hnew t2 He t1) in Hlt. apply list_elem_of_lookup in Hlt as [d Hd].
    exists d. split; [by eapply lookup_lt_Some|]. by apply lookup_app_l_Some.
Qed.

(** *** The steps keep the invariant *)

Lemma fresh_inv w : fresh w -> dispatcher_inv w.
Proof.
  intros [He Hh]. unfold dispatcher_inv. rewrite He, Hh.
  repeat split; done.
Qed.

Lemma pool_accounts_submit pool h d r p :
  pool_accounts pool h d r ->
  pool_accounts
    {| max_workers := max_workers pool;
       thread_name_prefix := thread_name_prefix pool;
       work_queue := work_queue pool ++ [{| ticket := issued pool; task_path := p |}];
       in_flight := in_flight pool;
       issued := S (issued pool) |}
    (h ++ [EvSubmit (issued pool)]) d r.
Proof.
  intros (Hr & Hfl & Hq & Hle & Hd & Hs & Hsub). unfold pool_accounts. cbn.
  split; [done|]. split; [done|]. split.
  { rewrite fmap_app, Hq. cbn.
    replace (S (issued pool) - (d + r)) with (S (issued pool - (d + r))) by lia.
    rewrite seq_S. do 2 f_equal. lia. }
  split; [lia|].
  repeat split; intros H.
  - apply elem_of_app in H as [H|H%list_elem_of_singleton]; [by apply Hd|done].
  - apply elem_of_app. left. by apply Hd.
  - apply elem_of_app in H as [H|H%list_elem_of_singleton]; [by apply Hs|done].
  - apply elem_of_app. left. by apply Hs.
  - apply elem_of_app in H as [H|H%list_elem_of_singleton].
    + apply Hsub in H. lia.
    + injection H as ->. lia.
  - apply elem_of_app. destruct (decide (t = issued pool)) as [->|Hne].
    + right. by apply list_elem_of_singleton.
    + left. apply Hsub. lia.
Qed.

Lemma keeps_ensure_submit p : keeps (ensure_worker_executor ;; submit p).
Proof.
  intros w (Ho & Hsf & Hser & Hex).
  unfold bind, ensure_worker_executor, submit.
  destruct w as [f ds l c [pool|] h]; cbn in *.
  - destruct Hex as (Hmax & d & r & Hacc).
    pose proof Hacc as (_ & _ & _ & _ & _ & _ & Hsub).
    unfold dispatcher_inv. cbn.
    split; [apply submit_order_snoc; [done|]; intros n [= <-] t Ht; by apply Hsub|].
    split; [by apply started_first_snoc|].
    split; [by apply serialized_snoc|].
    split; [done|]. exists d, r. by apply pool_accounts_submit.
  - subst h. unfold dispatcher_inv. cbn.
    split; [intros i1 i2 t1 t2 Hlt H1 H2;
            apply lookup_lt_Some in H2; cbn in H2; lia|].
    split; [intros d t H; by destruct d|].
    split; [intros j t2 H; by destruct j|].
    split; [done|]. exists 0, 0.
    unfold pool_accounts; cbn. repeat split; try done; try lia.
    + intros H%list_elem_of_singleton. done.
    + intros H%list_elem_of_singleton. done.
    + intros H%list_elem_of_singleton. injection H as ->. lia.
    + intros H. apply list_elem_of_singleton. f_equal. lia.
Qed.

Lemma keeps_enqueue_worker p : keeps (enqueue_worker p).
Proof.
  unfold enqueue_worker.
  apply keeps_bind; [apply quiet_keeps, quiet_print|intros _].
  apply keeps_ensure_submit.
Qed.

Lemma keeps_OnItemAdd env item : keeps (OnItemAdd env item).
Proof.
  unfold OnItemAdd, OnItemAdd_try.
  apply keeps_try_except; [|intros e; apply quiet_keeps, quiet_log_append].
  apply keeps_bind; [apply quiet_keeps, quiet_getattr_default|intros cls].
  destruct (negb _); [apply quiet_keeps, quiet_ret|].
  apply keeps_bind; [apply quiet_keeps, quiet_getattr_default|intros subj].
  destruct (negb _); [apply quiet_keeps, quiet_ret|].
  apply keeps_bind; [apply quiet_keeps, quiet_getattr_default|intros sender].
  apply keeps_bind; [apply quiet_keeps, quiet_getattr_default|intros body].
  apply keeps_bind; [apply quiet_keeps, quiet_getattr|intros recv].
  apply keeps_bind; [apply quiet_keeps|intros recv_str].
  { apply quiet_try_except; [|intros _; apply quiet_ret].
    destruct recv; [apply quiet_ret | apply quiet_raise]. }
  apply keeps_bind; [apply quiet_keeps, quiet_getattr_default|intros entry_id].
  apply keeps_bind; [apply quiet_keeps, quiet_write_temp_json|intros json_path].
  apply keeps_bind; [apply quiet_keeps, quiet_print|intros _].
  apply keeps_enqueue_worker.
Qed.

Lemma pool_start_keeps w w' :
  dispatcher_inv w -> pool_start w = Some w' -> dispatcher_inv w'.
Proof.
  intros (Ho & Hsf & Hser & Hex) Hstart. unfold pool_start in Hstart.
  destruct w as [f ds l c [pool|] h]; cbn in *; [|done].
  destruct Hex as (Hmax & d & r & Hr & Hfl & Hq & Hle & Hd & Hs & Hsub).
  destruct (work_queue pool) as [|t q] eqn:Eq; [done|].
  destruct (decide (length (in_flight pool) < max_workers pool)) as [Hfree|]; [|done].
  injection Hstart as <-.
  assert (in_flight pool = []) as Hnil.
  { destruct (in_flight pool); [done|]. cbn in Hfree. lia. }
  rewrite Hnil in *. cbn in Hfl.
  assert (r = 0) as -> by (by destruct r).
  replace (d + 0) with d in * by lia.
  destruct (issued pool - d) as [|k] eqn:Ek; [done|].
  cbn in Hq. injection Hq as Ht Hq.
  unfold dispatcher_inv. cbn.
  split; [by apply submit_order_snoc|].
  split; [by apply started_first_snoc|].
  split.
  { apply serialized_snoc; [done|]. intros t2 [= <-] t1 Hlt. apply Hd. lia. }
  split; [done|]. exists d, 1.
  unfold pool_accounts. cbn. rewrite Ht.
  split; [lia|]. split; [done|]. split.
  { rewrite Hq. f_equal; lia. }
  split; [lia|].
  repeat split; intros H.
  - apply elem_of_app in H as [H|H%list_elem_of_singleton]; [by apply Hd|done].
  - apply elem_of_app. left. by apply Hd.
  - apply elem_of_app in H as [H|H%list_elem_of_singleton].
    + apply Hs in H. lia.
    + injection H as ->. lia.
  - apply elem_of_app. destruct (decide (t0 = d)) as [->|Hne].
    + right. by apply list_elem_of_singleton.
    + left. apply Hs. lia.
  - apply elem_of_app in H as [H|H%list_elem_of_singleton]; [by apply Hsub|done].
  - apply elem_of_app. left. by apply Hsub.
Qed.

Lemma pool_finish_keeps env t w w' :
  dispatcher_inv w -> pool_finish env t w = Some w' -> dispatcher_inv w'.
Proof.
  intros (Ho & Hsf & Hser & Hex) Hfin. unfold pool_finish in Hfin.
  destruct (executor w) as [pool|] eqn:Eex; [|done].
  destruct (decide (t ∈ in_flight pool)) as [Hin|]; [|done].
  injection Hfin as <-.
  destruct (quiet_worker_task env (task_path t) w) as [_ Hh].
  set (w1 := snd (worker_task env (task_path t) w)) in *.
  destruct Hex as (Hmax & d & r & Hr & Hfl & Hq & Hle & Hd & Hs & Hsub).
  assert (in_flight pool = [t] /\ r = 1 /\ ticket t = d) as (Hone & -> & Ht).
  { destruct (in_flight pool) as [|u [|v rest]] eqn:Efl.
    - by apply elem_of_nil in Hin.
    - apply list_elem_of_singleton in Hin as ->.
      destruct r as [|[|r]]; cbn in Hfl; [done| |lia].
      by injection Hfl as ->.
    - apply (f_equal length) in Hfl. rewrite length_seq in Hfl. cbn in Hfl. lia. }
  unfold dispatcher_inv. cbn. rewrite Hh, Hone.
  rewrite filter_cons_False, filter_nil by (intros Hne; by apply Hne).
  split; [by apply submit_order_snoc|].
  split.
  { apply started_first_snoc; [done|]. intros t' [= <-]. apply Hs. lia. }
  split; [by apply serialized_snoc|].
  split; [done|]. exists (S d), 0.
  unfold pool_accounts. cbn.
  split; [lia|]. split; [done|]. split.
  { rewrite Hq. f_equal; lia. }
  split; [lia|].
  repeat split; intros H.
  - apply elem_of_app in H as [H|H%list_elem_of_singleton].
    + apply Hd in H. lia.
    + injection H as ->. lia.
  - apply elem_of_app. destruct (decide (t0 = d)) as [->|Hne].
    + right. apply list_elem_of_singleton. by rewrite Ht.
    + left. apply Hd. lia.
  - apply elem_of_app in H as [H|H%list_elem_of_singleton]; [|done].
    apply Hs in H. lia.
  - apply elem_of_app. left. apply Hs. lia.
  - apply elem_of_app in H as [H|H%list_elem_of_singleton]; [by apply Hsub|done].
  - apply elem_of_app. left. by apply Hsub.
Qed.

Lemma reachable_inv w : reachable w -> dispatcher_inv w.
Proof.
  induction 1 as [w Hf|w w' _ IH Hstep]; [by apply fresh_inv|].
  destruct Hstep as [env item w|w w' Hs|env t w w' Hf].
  - by apply keeps_OnItemAdd.
  - by eapply pool_start_keeps.
  - by eapply pool_finish_keeps.
Qed.

(** C1: in every state the running system can reach, the one pool has one
    worker and at most one work item in flight, a pool that exists is never
    replaced, and for two jobs submitted one after the other, when the
    worker invocation of the second starts, that of the first has started
    and, after that, finished. *)
Theorem dispatcher_serializes_jobs (w : World) :
  reachable w ->
  (forall pool, executor w = Some pool ->
     max_workers pool = 1 /\ length (in_flight pool) <= 1 /\
     ensure_worker_executor w = (Returns tt, w)) /\
  (forall i1 i2 j1 j2 s2,
     i1 < i2 ->
     history w !! i1 = Some (EvSubmit j1) ->
     history w !! i2 = Some (EvSubmit j2) ->
     history w !! s2 = Some (EvStart j2) ->
     exists s1 d1, s1 < d1 < s2 /\
       history w !! s1 = Some (EvStart j1) /\
       history w !! d1 = Some (EvDone j1)).
Proof.
  intros (Ho & Hsf & Hser & Hex)%reachable_inv. split.
  - intros pool Hpool. rewrite Hpool in Hex.
    destruct Hex as (Hmax & d & r & Hr & Hfl & _).
    split; [done|]. split.
    + apply (f_equal length) in Hfl.
      rewrite length_fmap, length_seq in Hfl. lia.
    + unfold ensure_worker_executor. by rewrite Hpool.
  - intros i1 i2 j1 j2 s2 Hlt H1 H2 Hstart.
    pose proof (Ho i1 i2 j1 j2 Hlt H1 H2) as Hj.
    destruct (Hser s2 j2 Hstart j1 Hj) as (d1 & Hd1 & Hdone).
    destruct (Hsf d1 j1 Hdone) as (s1 & Hs1 & Hstart1).
    exists s1, d1. split; [lia|done].
Qed.

Lemma dispatcher_serializes_jobs_witness :
  history Scenario.second_started
    = [EvSubmit 0; EvSubmit 1; EvStart 0; EvDone 0; EvStart 1] /\
  exists s1 d1, s1 < d1 < 4 /\
    history Scenario.second_started !! s1 = Some (EvStart 0) /\
    history Scenario.second_started !! d1 = Some (EvDone 0).
Proof.
  split; [reflexivity|].
  assert (reachable Scenario.second_started) as Hreach.
  { apply (reach_step Scenario.first_done); [|by apply step_start].
    apply (reach_step Scenario.first_started);
      [|by apply (step_finish Scenario.calm
                    {| ticket := 0; task_path := job_path Scenario.calm |})].
    apply (reach_step Scenario.both_queued); [|by apply step_start].
    apply (reach_step Scenario.first_queued);
      [|apply (step_item Scenario.calm_later Scenario.vendor_mail)].
    apply (reach_step initial_world);
      [|apply (step_item Scenario.calm Scenario.vendor_mail)].
    by apply reach_fresh. }
  destruct (dispatcher_serializes_jobs Scenario.second_started Hreach) as [_ H].
  apply (H 0 1 0 1 4); [lia|reflexivity..].
Defined.

End Dispatcher.

(** * Further properties of the listener *)

(** ** The environment of the worker process *)

(** X1: the worker process is handed the job's directory and file name
    under [ESKER_VENDOR_JSON_DIR] and [ESKER_VENDOR_JSON_PATTERN], never an
    [ESKER_DRYRUN], and every other variable of the listener's environment
    as it is. *)
Theorem worker_environ_lookup (env : Env) (json_path : Path) :
  worker_environ env json_path !! "ESKER_VENDOR_JSON_DIR" = Some (path_parent json_path) /\
  worker_environ env json_path !! "ESKER_VENDOR_JSON_PATTERN" = Some (path_name json_path) /\
  worker_environ env json_path !! "ESKER_DRYRUN" = None /\
  (forall k : string,
     k ≠ "ESKER_VENDOR_JSON_DIR" -> k ≠ "ESKER_VENDOR_JSON_PATTERN" ->
     k ≠ "ESKER_DRYRUN" ->
     worker_environ env json_path !! k = os_environ env !! k).
Proof.
  unfold worker_environ. cbv zeta.
  split; [by rewrite lookup_insert_ne, lookup_insert_eq|].
  split; [by rewrite lookup_insert_eq|].
  split; [by rewrite !lookup_insert_ne, lookup_delete_eq|].
  intros k H1 H2 H3. by rewrite !lookup_insert_ne, lookup_delete_ne.
Qed.

(** ** The archive step never loses a job *)

Lemma worker_task_files env p w :
  files (snd (worker_task env p w)) = files (snd (run_worker env p w)) /\
  dirs (snd (worker_task env p w)) = dirs (snd (run_worker env p w)).
Proof.
  unfold worker_task, try_except.
  destruct (run_worker env p w) as [[[]|e] w1]; [done|].
  unfold log_append, os_call. by destruct (io_error env (OpAppend RUNNER_LOG)).
Qed.



(** X3: when the worker process exits 0 but the job file is no longer in
    the queue, nothing is archived and no file changes; with the log and the
    archive directory writable, [run_worker] raises the [OSError] of the
    copy after it has created the archive directory. *)
Theorem run_worker_exit0_job_missing
    (env : Env) (json_path : Path) (w : World) (out err : string) :
  worker_result env json_path = Completed 0 out err ->
  files w !! json_path = None ->
  files (snd (run_worker env json_path w)) = files w /\
  (io_error env (OpAppend RUNNER_LOG) = None ->
   io_error env (OpMkdir ARCHIVE_SUCCESS_DIR) = None ->
   ARCHIVE_SUCCESS_DIR ∈ dirs (snd (run_worker env json_path w)) /\
   exists msg, fst (run_worker env json_path w) = Raises (Exn OSError msg)).
Proof.
  intros Hres Hfile. unfold run_worker. rewrite Hres. unfold_py. cbn.
  destruct (io_error env (OpAppend RUNNER_LOG)); cbn; [done|].
  destruct (io_error env (OpMkdir ARCHIVE_SUCCESS_DIR)); cbn; [done|].
  destruct (decide (json_path = _)); cbn.
  - split; [done|]. intros _ _. split; [set_solver|by eexists].
  - rewrite Hfile. cbn. split; [done|]. intros _ _. split; [set_solver|by eexists].
Qed.

Lemma run_worker_exit0_job_missing_witness :
  files (snd (run_worker Scenario.calm Scenario.job Cases.job_gone)) = files Cases.job_gone.
Proof.
  apply (run_worker_exit0_job_missing Scenario.calm Scenario.job Cases.job_gone "done" "");
    reflexivity.
Defined.

(** X4: with the runner log writable, [worker_task] returns normally
    whatever the worker process does and whichever other call fails; when
    [run_worker] raises, exactly one line naming the job file and the error
    is appended to the runner log, and when it returns, [worker_task] adds
    nothing to what [run_worker] did. *)
Theorem worker_task_always_returns (env : Env) (json_path : Path) (w : World) :
  io_error env (OpAppend RUNNER_LOG) = None ->
  fst (worker_task env json_path w) = Returns tt /\
  (forall w1, run_worker env json_path w = (Returns tt, w1) ->
     worker_task env json_path w = (Returns tt, w1)) /\
  (forall e w1, run_worker env json_path w = (Raises e, w1) ->
     logs (snd (worker_task env json_path w)) !! RUNNER_LOG
     = Some (default [] (logs w1 !! RUNNER_LOG)
             ++ [ctime env +:+ " worker_task error for " +:+ path_name json_path
                 +:+ ": " +:+ exn_msg e +:+ nl])).
Proof.
  intros Hlog. unfold worker_task, try_except.
  destruct (run_worker env json_path w) as [[[]|e] w1].
  - repeat split; [by intros w2 [= <-] | by intros e w2 [=]].
  - unfold log_append, os_call. rewrite Hlog. cbn.
    repeat split; [by intros w2 [=]|].
    intros e' w2 [= <- <-]. by rewrite lookup_insert_eq.
Qed.

Lemma worker_task_always_returns_witness :
  fst (worker_task Cases.archive_denied Scenario.job Scenario.queued) = Returns tt.
Proof.
  apply (worker_task_always_returns Cases.archive_denied Scenario.job Scenario.queued).
  reflexivity.
Defined.

(** ** The dispatcher: no job lost, none run twice *)

Section DispatcherMore.
Local Open Scope nat_scope.

(** X5: in every state the running system can reach, the jobs done are
    exactly the first [d] submissions, the job in flight, if any, is the next
    one, and the queue holds all later submissions in submission order: no
    submitted job is lost, skipped, overtaken or in two places. *)
Theorem dispatcher_accounts_for_every_job (w : World) (pool : Pool) :
  reachable w ->
  executor w = Some pool ->
  exists d r,
    r <= 1 /\ d + r <= issued pool /\
    ticket <$> in_flight pool = seq d r /\
    ticket <$> work_queue pool = seq (d + r) (issued pool - (d + r)) /\
    (forall t, EvDone t ∈ history w <-> t < d) /\
    (forall t, EvSubmit t ∈ history w <-> t < issued pool) /\
    (forall t, t < issued pool <->
       EvDone t ∈ history w \/
       t ∈ ticket <$> in_flight pool \/
       t ∈ ticket <$> work_queue pool).
Proof.
  intros (_ & _ & _ & Hex)%reachable_inv Hpool. rewrite Hpool in Hex.
  destruct Hex as (_ & d & r & Hr & Hfl & Hq & Hle & Hd & _ & Hsub).
  exists d, r.
  split; [done|]. split; [done|]. split; [done|]. split; [done|].
  split; [done|]. split; [done|].
  intros t. rewrite Hfl, Hq, Hd, !elem_of_seq. lia.
Qed.

Lemma second_started_reachable : reachable Scenario.second_started.
Proof.
  apply (reach_step Scenario.first_done); [|by apply step_start].
  apply (reach_step Scenario.first_started);
    [|by apply (step_finish Scenario.calm
                  {| ticket := 0; task_path := job_path Scenario.calm |})].
  apply (reach_step Scenario.both_queued); [|by apply step_start].
  apply (reach_step Scenario.first_queued);
    [|apply (step_item Scenario.calm_later Scenario.vendor_mail)].
  apply (reach_step initial_world);
    [|apply (step_item Scenario.calm Scenario.vendor_mail)].
  by apply reach_fresh.
Qed.

Lemma dispatcher_accounts_for_every_job_witness :
  exists pool d r,
    executor Scenario.second_started = Some pool /\
    ticket <$> in_flight pool = seq d r /\
    ticket <$> work_queue pool = seq (d + r) (issued pool - (d + r)) /\
    (forall t, EvDone t ∈ history Scenario.second_started <-> t < d).
Proof.
  set (pool := {| max_workers := 1; thread_name_prefix := "esker-worker";
                  work_queue := [];
                  in_flight := [{| ticket := 1;
                                   task_path := job_path Scenario.calm_later |}];
                  issued := 2 |}).
  destruct (dispatcher_accounts_for_every_job Scenario.second_started pool
              second_started_reachable eq_refl)
    as (d & r & _ & _ & Hfl & Hq & Hd & _).
  by exists pool, d, r.
Defined.

(** *** What one handler call does to the pool *)

Lemma same_dispatch_refl w : same_dispatch w w.
Proof. done. Qed.

Lemma same_dispatch_trans w1 w2 w3 :
  same_dispatch w1 w2 -> same_dispatch w2 w3 -> same_dispatch w1 w3.
Proof. intros [H1 H2] [H3 H4]. split; congruence. Qed.

Lemma quiet_same {A} (c : M A) w : quiet c -> same_dispatch w (snd (c w)).
Proof. intros Hq. apply Hq. Qed.

Lemma quiet_submits {A} (c : M A) : quiet c -> submits_at_most_once c.
Proof. intros Hq w. left. by apply quiet_same. Qed.

Lemma ensure_submit_same p w0 w0' :
  same_dispatch w0 w0' ->
  same_dispatch (snd ((ensure_worker_executor ;; submit p) w0))
                (snd ((ensure_worker_executor ;; submit p) w0')).
Proof.
  intros [He Hh]. unfold bind, ensure_worker_executor, submit.
  destruct w0 as [f d l c ex h], w0' as [f' d' l' c' ex' h']; cbn in *. subst.
  by destruct ex.
Qed.

Lemma submits_bind_quiet_l {A B} (c : M A) (k : A -> M B) :
  quiet c -> (forall a, submits_at_most_once (k a)) ->
  submits_at_most_once (bind c k).
Proof.
  intros Hc Hk w. unfold bind. pose proof (quiet_same c w Hc) as Hs.
  destruct (c w) as [[a|e] w1]; cbn in *; [|by left].
  destruct (Hk a w1) as [H|(p & w0 & H0 & H1)].
  - left. by eapply same_dispatch_trans.
  - right. exists p, w0. split; [by eapply same_dispatch_trans|done].
Qed.

Lemma submits_try_except {A} (c : M A) (h : exn -> M A) :
  submits_at_most_once c -> (forall e, quiet (h e)) ->
  submits_at_most_once (try_except c h).
Proof.
  intros Hc Hh w. unfold try_except. specialize (Hc w).
  destruct (c w) as [[a|e] w1]; cbn in *; [done|].
  pose proof (quiet_same (h e) w1 (Hh e)) as Hs.
  destruct Hc as [H|(p & w0 & H0 & H1)].
  - left. by eapply same_dispatch_trans.
  - right. exists p, w0. split; [done|by eapply same_dispatch_trans].
Qed.

Lemma submits_enqueue_worker p : submits_at_most_once (enqueue_worker p).
Proof.
  intros w. right. unfold enqueue_worker.
  exists p, (with_console
               (console w ++ ["[listener] Queued automation job for " +:+ path_name p]) w).
  split; [done|]. unfold bind at 1. unfold print. done.
Qed.

Lemma submits_OnItemAdd env item : submits_at_most_once (OnItemAdd env item).
Proof.
  unfold OnItemAdd, OnItemAdd_try.
  apply submits_try_except; [|intros e; apply quiet_log_append].
  apply submits_bind_quiet_l; [apply quiet_getattr_default|intros cls].
  destruct (negb _); [apply quiet_submits, quiet_ret|].
  apply submits_bind_quiet_l; [apply quiet_getattr_default|intros subj].
  destruct (negb _); [apply quiet_submits, quiet_ret|].
  apply submits_bind_quiet_l; [apply quiet_getattr_default|intros sender].
  apply submits_bind_quiet_l; [apply quiet_getattr_default|intros body].
  apply submits_bind_quiet_l; [apply quiet_getattr|intros recv].
  apply submits_bind_quiet_l; [|intros recv_str].
  { apply quiet_try_except; [|intros _; apply quiet_ret].
    destruct recv; [apply quiet_ret | apply quiet_raise]. }
  apply submits_bind_quiet_l; [apply quiet_getattr_default|intros entry_id].
  apply submits_bind_quiet_l; [apply quiet_write_temp_json|intros json_path].
  apply submits_bind_quiet_l; [apply quiet_print|intros _].
  apply submits_enqueue_worker.
Qed.

Lemma ensure_submit_history p w :
  history (snd ((ensure_worker_executor ;; submit p) w))
  = history w ++ [EvSubmit (next_ticket w)].
Proof.
  unfold bind, ensure_worker_executor, submit, next_ticket.
  destruct w as [f d l c [pool|] h]; by cbn.
Qed.

(** The history after a step is the history before, or has one more
    event. *)
Lemma step_history w w' :
  step w w' ->
  history w' = history w \/
  (history w' = history w ++ [EvSubmit (next_ticket w)]) \/
  (exists pool t q, executor w = Some pool /\ work_queue pool = t :: q /\
     length (in_flight pool) < max_workers pool /\
     history w' = history w ++ [EvStart (ticket t)]) \/
  (exists pool t, executor w = Some pool /\ t ∈ in_flight pool /\
     history w' = history w ++ [EvDone (ticket t)]).
Proof.
  intros [env item w0|w0 w0' Hs|env t w0 w0' Hf].
  - destruct (submits_OnItemAdd env item w0) as [[_ H]|(p & w1 & [He Hh] & [_ H])].
    + by left.
    + right. left. rewrite H, ensure_submit_history, Hh.
      unfold next_ticket. by rewrite He.
  - right. right. left. unfold pool_start in Hs.
    destruct (executor w0) as [pool|] eqn:E; [|done].
    destruct (work_queue pool) as [|t q] eqn:Eq; [done|].
    destruct (decide _) as [Hfree|]; [|done]. injection Hs as <-.
    by exists pool, t, q.
  - right. right. right. unfold pool_finish in Hf.
    destruct (executor w0) as [pool|] eqn:E; [|done].
    destruct (decide _) as [Hin|]; [|done]. injection Hf as <-.
    exists pool, t. cbn.
    destruct (quiet_worker_task env (task_path t) w0) as [_ ->]. done.
Qed.

Lemma submitted_first_snoc h e :
  submitted_first h ->
  (forall t, e = EvStart t -> EvSubmit t ∈ h) ->
  submitted_first (h ++ [e]).
Proof.
  intros Hs Hnew j t Hj.
  apply lookup_snoc_Some in Hj as [[Hi Hj]|[-> He]].
  - destruct (Hs j t Hj) as (i & Hlt & Hi').
    exists i. split; [done|]. by apply lookup_app_l_Some.
  - apply Hnew, list_elem_of_lookup in He as [i Hi].
    exists i. split; [by eapply lookup_lt_Some|]. by apply lookup_app_l_Some.
Qed.

Lemma reachable_once w :
  reachable w -> NoDup (history w) /\ submitted_first (history w).
Proof.
  induction 1 as [w [_ Hh]|w w' Hreach [IHn IHs] Hstep].
  { rewrite Hh. split; [constructor|]. intros j t H. by rewrite lookup_nil in H. }
  pose proof (reachable_inv w Hreach) as (_ & _ & _ & Hex).
  destruct (step_history w w' Hstep)
    as [->|[->|[(pool & t & q & Hpool & Hq & Hfree & ->)|(pool & t & Hpool & Hin & ->)]]].
  - done.
  - split; [|by apply submitted_first_snoc].
    apply NoDup_app. split; [done|]. split; [|apply NoDup_singleton].
    intros x Hx ->%list_elem_of_singleton.
    unfold next_ticket in Hx. destruct (executor w) as [pool|].
    + destruct Hex as (_ & d & r & _ & _ & _ & _ & _ & _ & Hsub).
      apply Hsub in Hx. lia.
    + rewrite Hex in Hx. by apply elem_of_nil in Hx.
  - rewrite Hpool in Hex.
    destruct Hex as (Hmax & d & r & Hr & Hfl & Hqs & Hle & Hd & Hs & Hsub).
    assert (r = 0) as ->.
    { apply (f_equal length) in Hfl. rewrite length_fmap, length_seq in Hfl. lia. }
    rewrite Hq in Hqs. cbn in Hqs.
    destruct (issued pool - (d + 0)) as [|k] eqn:Ek; [done|].
    cbn in Hqs. injection Hqs as Ht _.
    split.
    + apply NoDup_app. split; [done|]. split; [|apply NoDup_singleton].
      intros x Hx ->%list_elem_of_singleton. apply Hs in Hx. lia.
    + apply submitted_first_snoc; [done|]. intros t' [= <-]. apply Hsub. lia.
  - rewrite Hpool in Hex.
    destruct Hex as (Hmax & d & r & Hr & Hfl & Hqs & Hle & Hd & Hs & Hsub).
    assert (ticket t ∈ seq d r) as Ht by (rewrite <- Hfl; by apply list_elem_of_fmap_2).
    apply elem_of_seq in Ht.
    split; [|by apply submitted_first_snoc].
    apply NoDup_app. split; [done|]. split; [|apply NoDup_singleton].
    intros x Hx ->%list_elem_of_singleton. apply Hd in Hx. lia.
Qed.

(** X6: in every state the running system can reach, no event occurs twice
    in the dispatcher's history: a ticket is handed out once, and a job is
    started at most once and finished at most once; and a job is started
    only after it was submitted. *)
Theorem dispatcher_runs_each_job_once (w : World) :
  reachable w ->
  NoDup (history w) /\
  (forall i j e, history w !! i = Some e -> history w !! j = Some e -> i = j) /\
  (forall j t, history w !! j = Some (EvStart t) ->
     exists i, i < j /\ history w !! i = Some (EvSubmit t)).
Proof.
  intros [Hn Hs]%reachable_once. split; [done|]. split; [|done].
  intros i j e Hi Hj. by eapply NoDup_lookup.
Qed.

Lemma dispatcher_runs_each_job_once_witness :
  NoDup (history Scenario.second_started) /\
  exists i, i < 4 /\ history Scenario.second_started !! i = Some (EvSubmit 1).
Proof.
  destruct (dispatcher_runs_each_job_once Scenario.second_started
              second_started_reachable) as (Hn & _ & Hs).
  split; [exact Hn|]. apply (Hs 4 1). reflexivity.
Defined.

End DispatcherMore.

(** ** The subject filter *)


Lemma ascii_count_le s : (ascii_count s <= String.length s)%nat.
Proof.
  induction s as [|c s IH]; [done|].
  cbn [ascii_count String.length]. destruct (N_of_ascii c <? 128)%N; lia.
Qed.




(** ** Job file names: when they coincide and how they sort *)

Lemma app_inj_length a b x y :
  a +:+ x = b +:+ y -> String.length x = String.length y -> a = b /\ x = y.
Proof.
  revert b. induction a as [|c a IH]; intros [|d b] H Hlen.
  - done.
  - rewrite app_empty_l in H. subst x.
    rewrite app_cons in Hlen. cbn in Hlen. rewrite length_app in Hlen. lia.
  - rewrite app_empty_l in H. subst y.
    rewrite app_cons in Hlen. cbn in Hlen. rewrite length_app in Hlen. lia.
  - rewrite !app_cons in H. injection H as -> H.
    destruct (IH b H Hlen) as [-> ->]. done.
Qed.

Lemma format_0d_9_length z :
  String.length (Str.format_0d 9 (z mod 1000000000)) = 9%nat /\
  Str.all_digits (Str.format_0d 9 (z mod 1000000000)) = true.
Proof.
  apply format_0d_fixed; [|lia].
  pose proof (Z.mod_pos_bound z 1000000000 ltac:(lia)). cbn. lia.
Qed.

(** X10: two job file names are equal exactly when the timestamps are equal
    and the nanosecond readings agree modulo one second; so names of
    different seconds never coincide, and within one timestamp only readings
    a whole number of seconds apart give the same name. *)
Theorem job_filename_eq_iff (ts1 ts2 : string) (ns1 ns2 : Z) :
  job_filename ts1 ns1 = job_filename ts2 ns2 <->
  ts1 = ts2 /\ ns1 mod 1000000000 = ns2 mod 1000000000.
Proof.
  split.
  - intros H. pose proof H as H0. unfold job_filename in H.
    apply app_inj_length in H as [-> _].
    + split; [done|]. by apply (job_filename_inj ts2).
    + rewrite !app_cons, !app_empty_l. cbn. rewrite !length_app.
      destruct (format_0d_9_length ns1) as [-> _].
      by destruct (format_0d_9_length ns2) as [-> _].
  - intros [-> Hns]. unfold job_filename. by rewrite Hns.
Qed.

Lemma job_filename_eq_iff_witness :
  job_filename "20251031_120000" 1761912000000000005
  = job_filename "20251031_120000" 1761912001000000005.
Proof. apply job_filename_eq_iff. split; reflexivity. Defined.

Lemma ascii_compare_refl c : Ascii.compare c c = Eq.
Proof. unfold Ascii.compare. apply N.compare_refl. Qed.

Lemma compare_app_prefix p a b :
  String.compare (p +:+ a) (p +:+ b) = String.compare a b.
Proof.
  induction p as [|c p IH]; [done|].
  rewrite !app_cons. cbn. by rewrite ascii_compare_refl.
Qed.

Lemma compare_lt_app a b x y :
  String.compare a b = Lt -> String.length a = String.length b ->
  String.compare (a +:+ x) (b +:+ y) = Lt.
Proof.
  revert b. induction a as [|c a IH]; intros [|d b] H Hlen; try done.
  rewrite !app_cons. cbn in *.
  destruct (Ascii.compare c d); [|done|done].
  apply IH; [done|lia].
Qed.

Lemma dec_value_from_split acc s :
  Str.dec_value_from acc s
  = (acc * 10 ^ N.of_nat (String.length s) + Str.dec_value s)%N.
Proof.
  unfold Str.dec_value. revert acc. induction s as [|c s IH]; intros acc.
  - cbn. lia.
  - cbn [Str.dec_value_from String.length]. rewrite IH, (IH (10 * 0 + _)%N).
    replace (N.of_nat (S (String.length s))) with (N.succ (N.of_nat (String.length s)))
      by lia.
    rewrite N.pow_succ_r'. lia.
Qed.

Lemma dec_value_bound s :
  Str.all_digits s = true -> (Str.dec_value s < 10 ^ N.of_nat (String.length s))%N.
Proof.
  induction s as [|c s IH]; intros Hd; [cbn; lia|].
  cbn in Hd. apply andb_true_iff in Hd as [Hc Hd].
  unfold Str.dec_value. cbn [Str.dec_value_from String.length].
  rewrite dec_value_from_split. specialize (IH Hd).
  replace (N.of_nat (S (String.length s))) with (N.succ (N.of_nat (String.length s)))
    by lia.
  rewrite N.pow_succ_r'.
  unfold Str.is_digit in Hc. apply andb_true_iff in Hc as [H1%N.leb_le H2%N.leb_le].
  unfold Str.digit_val. nia.
Qed.

(** Digit strings of one length compare as their values do. *)
Lemma digits_compare_lt x y :
  String.length x = String.length y ->
  Str.all_digits x = true -> Str.all_digits y = true ->
  (Str.dec_value x < Str.dec_value y)%N ->
  String.compare x y = Lt.
Proof.
  revert y. induction x as [|c x IH]; intros [|d y] Hlen Hx Hy Hlt; try done.
  cbn in Hx, Hy, Hlen.
  apply andb_true_iff in Hx as [Hc Hx]. apply andb_true_iff in Hy as [Hd Hy].
  unfold Str.dec_value in Hlt. cbn [Str.dec_value_from] in Hlt.
  rewrite !dec_value_from_split in Hlt.
  pose proof (dec_value_bound x Hx) as Bx. pose proof (dec_value_bound y Hy) as By.
  assert (String.length x = String.length y) as Hl by lia.
  rewrite Hl in *.
  unfold Str.is_digit in Hc, Hd.
  apply andb_true_iff in Hc as [Hc1%N.leb_le Hc2%N.leb_le].
  apply andb_true_iff in Hd as [Hd1%N.leb_le Hd2%N.leb_le].
  unfold Str.digit_val in Hlt.
  cbn [String.compare]. unfold Ascii.compare.
  destruct (N.compare_spec (N_of_ascii c) (N_of_ascii d)) as [Heq|Hcd|Hcd].
  - apply IH; [done..|]. rewrite Heq in Hlt. lia.
  - done.
  - exfalso. nia.
Qed.

(** X11: job file names sort as the clock readings do: for timestamps of one
    length, a smaller timestamp gives a smaller name whatever the
    nanoseconds, and under one timestamp a smaller sub-second part gives a
    smaller name. *)
Theorem job_filename_sorts (ts1 ts2 : string) (ns1 ns2 : Z) :
  String.length ts1 = String.length ts2 ->
  str_lt ts1 ts2 \/ (ts1 = ts2 /\ ns1 mod 1000000000 < ns2 mod 1000000000) ->
  str_lt (job_filename ts1 ns1) (job_filename ts2 ns2).
Proof.
  intros Hlen [Hts|[-> Hns]]; unfold str_lt, job_filename in *.
  - by apply compare_lt_app.
  - rewrite !compare_app_prefix.
    destruct (format_0d_9_length ns1) as [L1 D1].
    destruct (format_0d_9_length ns2) as [L2 D2].
    apply compare_lt_app; [|lia].
    apply digits_compare_lt; [lia|done|done|].
    pose proof (Z.mod_pos_bound ns1 1000000000 ltac:(lia)).
    pose proof (Z.mod_pos_bound ns2 1000000000 ltac:(lia)).
    rewrite !format_0d_value by lia. lia.
Qed.

Lemma job_filename_sorts_witness :
  str_lt (job_filename "20251031_120000" 1761912000999999999)
         (job_filename "20251031_120001" 1761912001000000000) /\
  str_lt (job_filename "20251031_120000" 1761912000000000099)
         (job_filename "20251031_120000" 1761912000000000100).
Proof.
  split; apply job_filename_sorts; try reflexivity.
  - left. reflexivity.
  - right. split; [reflexivity|]. by vm_compute.
Defined.

(** ** The payload writer: when it returns, and what a name collision does *)

Lemma tree_self d : d ∈ tree d.
Proof. apply elem_of_union_l. by apply elem_of_singleton. Qed.

Lemma tree_parent d a : a ∈ parents d -> a ∈ tree d.
Proof. intros H. apply elem_of_union_r. by apply elem_of_list_to_set. Qed.

Lemma mkdir_returns env d w :
  io_error env (OpMkdir d) = None ->
  mkdir env d w = (Returns tt, with_dirs (tree d ∪ dirs w) w).
Proof. intros H. unfold mkdir, tree. by rewrite H. Qed.

Lemma write_temp_json_success env data w :
  writer_calls_succeed env ->
  write_temp_json env data w
  = (Returns (job_path env),
     with_files (<[ mirror_path env := json_dumps data ]>
                   (<[ job_path env := json_dumps data ]> (files w)))
       (with_dirs (tree DOWNLOADS_DIR ∪ (tree QUEUE_DIR ∪ dirs w)) w)).
Proof.
  intros (Hmk & Hwr & Hmd & Hcp). unfold write_temp_json.
  fold (job_path env). fold (mirror_path env).
  unfold bind at 1. rewrite (mkdir_returns _ _ _ Hmk).
  unfold bind at 1. unfold write_text, os_call. rewrite Hwr.
  unfold bind at 1. rewrite (mkdir_returns _ _ _ Hmd).
  unfold bind, copy2, os_call, ret. cbn [files with_files with_dirs].
  rewrite decide_False by (intros [= H]).
  rewrite lookup_insert_eq. by rewrite Hcp.
Qed.

(** X12: [write_temp_json] returns exactly when its four calls go through
    (the queue directory, the job file, the Downloads directory, the
    mirror); it then returns the job path, the job file and its mirror hold
    the same text, which reads back as the record, the two directories
    exist together with all their parents, and nothing else of the world
    changes. *)
Theorem write_temp_json_returns_iff
    (env : Env) (data : list (string * string)) (w : World) :
  ((exists p, fst (write_temp_json env data w) = Returns p) <-> writer_calls_succeed env) /\
  (writer_calls_succeed env ->
   fst (write_temp_json env data w) = Returns (job_path env) /\
   files (snd (write_temp_json env data w))
   = <[ mirror_path env := json_dumps data ]>
       (<[ job_path env := json_dumps data ]> (files w)) /\
   json_loads (json_dumps data) = Some data /\
   dirs (snd (write_temp_json env data w))
   = tree DOWNLOADS_DIR ∪ (tree QUEUE_DIR ∪ dirs w) /\
   QUEUE_DIR ∈ dirs (snd (write_temp_json env data w)) /\
   DOWNLOADS_DIR ∈ dirs (snd (write_temp_json env data w)) /\
   (forall d, d ∈ parents QUEUE_DIR \/ d ∈ parents DOWNLOADS_DIR ->
      d ∈ dirs (snd (write_temp_json env data w))) /\
   logs (snd (write_temp_json env data w)) = logs w /\
   console (snd (write_temp_json env data w)) = console w /\
   executor (snd (write_temp_json env data w)) = executor w /\
   history (snd (write_temp_json env data w)) = history w).
Proof.
  split.
  - split.
    + intros [p Hp]. unfold write_temp_json in Hp.
      fold (job_path env) in Hp. fold (mirror_path env) in Hp.
      unfold writer_calls_succeed.
      unfold bind, ret, mkdir, write_text, copy2, os_call in Hp.
      destruct (io_error env (OpMkdir QUEUE_DIR)); [done|].
      destruct (io_error env (OpWriteText (job_path env))); [done|].
      destruct (io_error env (OpMkdir DOWNLOADS_DIR)); [done|].
      cbn [files with_files with_dirs] in Hp.
      rewrite decide_False in Hp by (intros [= H]).
      rewrite lookup_insert_eq in Hp.
      by destruct (io_error env (OpCopy (job_path env) (mirror_path env))).
    + intros H. exists (job_path env). by rewrite write_temp_json_success.
  - intros H. rewrite write_temp_json_success by done.
    cbn [fst snd files dirs logs console executor history with_files with_dirs].
    split; [done|]. split; [done|]. split; [apply json_loads_dumps|].
    split; [done|].
    split; [apply elem_of_union_r, elem_of_union_l, tree_self|].
    split; [apply elem_of_union_l, tree_self|].
    split; [|done].
    intros d [Hd|Hd].
    + by apply elem_of_union_r, elem_of_union_l, tree_parent.
    + by apply elem_of_union_l, tree_parent.
Qed.

Lemma write_temp_json_returns_iff_witness :
  fst (write_temp_json Scenario.calm [("subject", "esker gl email")] initial_world)
  = Returns (job_path Scenario.calm).
Proof.
  apply (write_temp_json_returns_iff Scenario.calm [("subject", "esker gl email")]
           initial_world).
  repeat split; reflexivity.
Defined.

(** X13: the writer does not look whether the job file exists: when a
    second record is written under the same timestamp and the same
    sub-second reading as an earlier one, and the four calls of the second
    writing go through, the same path is returned again, the second record
    replaces the first in the job file and in its mirror, and the first
    record is in neither any more. *)
Theorem write_temp_json_same_name_replaces
    (env1 env2 : Env) (data1 data2 : list (string * string)) (w : World) :
  strftime_now env1 = strftime_now env2 ->
  time_ns env1 mod 1000000000 = time_ns env2 mod 1000000000 ->
  writer_calls_succeed env2 ->
  let w2 := snd (write_temp_json env2 data2 (snd (write_temp_json env1 data1 w))) in
  job_path env1 = job_path env2 /\
  mirror_path env1 = mirror_path env2 /\
  fst (write_temp_json env2 data2 (snd (write_temp_json env1 data1 w)))
  = Returns (job_path env1) /\
  files w2 !! job_path env1 = Some (json_dumps data2) /\
  files w2 !! mirror_path env1 = Some (json_dumps data2) /\
  (data1 ≠ data2 ->
   files w2 !! job_path env1 ≠ Some (json_dumps data1) /\
   files w2 !! mirror_path env1 ≠ Some (json_dumps data1)).
Proof.
  intros Hts Hns Hok w2. subst w2.
  assert (job_path env1 = job_path env2) as Hp.
  { unfold job_path, job_filename. by rewrite Hts, Hns. }
  assert (mirror_path env1 = mirror_path env2) as Hm.
  { unfold mirror_path. by rewrite Hp. }
  split; [done|]. split; [done|]. rewrite Hp, Hm.
  rewrite write_temp_json_success by done.
  cbn [fst snd files with_files with_dirs].
  assert (job_path env2 ≠ mirror_path env2) as Hne by (intros [= H]).
  split; [done|].
  split; [by rewrite lookup_insert_ne, lookup_insert_eq|].
  split; [by rewrite lookup_insert_eq|].
  intros Hd.
  assert (json_dumps data2 ≠ json_dumps data1) as Hj.
  { intros H. apply Hd. apply (f_equal json_loads) in H.
    rewrite !json_loads_dumps in H. congruence. }
  split.
  - rewrite lookup_insert_ne, lookup_insert_eq by done. congruence.
  - rewrite lookup_insert_eq. congruence.
Qed.

Lemma write_temp_json_same_name_replaces_witness :
  files (snd (write_temp_json Scenario.calm [("subject", "second")]
                (snd (write_temp_json Scenario.calm [("subject", "first")]
                        initial_world))))
    !! job_path Scenario.calm = Some (json_dumps [("subject", "second")]).
Proof.
  apply (write_temp_json_same_name_replaces Scenario.calm Scenario.calm
           [("subject", "first")] [("subject", "second")] initial_world);
    [reflexivity | reflexivity | repeat split; reflexivity].
Defined.

(** ** The handler around the writer and the dispatcher *)

Lemma write_temp_json_backup_fails_world env data w msg :
  io_error env (OpMkdir QUEUE_DIR) = None ->
  io_error env (OpWriteText (job_path env)) = None ->
  backup_fails env msg ->
  exists w1,
    write_temp_json env data w = (Raises (Exn OSError msg), w1) /\
    files w1 !! job_path env = Some (json_dumps data) /\
    files w1 !! mirror_path env = files w !! mirror_path env /\
    logs w1 = logs w /\ console w1 = console w /\
    executor w1 = executor w /\ history w1 = history w.
Proof.
  intros Hmk Hwr Hbk. unfold write_temp_json. fold (job_path env).
  fold (mirror_path env).
  unfold bind at 1. rewrite (mkdir_returns _ _ _ Hmk).
  unfold bind at 1. unfold write_text, os_call. rewrite Hwr.
  assert (job_path env ≠ mirror_path env) as Hne by (intros [= H]).
  destruct Hbk as [Hd | [Hd Hc]].
  - unfold bind at 1. unfold mkdir. rewrite Hd.
    eexists. split; [done|]. cbn [files logs console executor history with_files with_dirs].
    rewrite lookup_insert_eq. by rewrite lookup_insert_ne.
  - unfold bind at 1. rewrite (mkdir_returns _ _ _ Hd).
    unfold bind, copy2, os_call, ret. cbn [files with_files with_dirs].
    rewrite decide_False by done.
    rewrite lookup_insert_eq. fold (mirror_path env) in Hc. rewrite Hc.
    eexists. split; [done|]. cbn [files logs console executor history with_files with_dirs].
    rewrite lookup_insert_eq. by rewrite lookup_insert_ne.
Qed.

(** X14: when the mirror into the Downloads directory fails for a mail item
    with a matching subject, the handler still returns normally, but the job
    stays behind: its file is in the queue directory, nothing is submitted
    to the dispatcher (pool and history are as before), nothing is printed,
    and the error log gets one line with the error of the mirror. *)
Theorem OnItemAdd_backup_failure_leaves_job_unqueued
    (env : Env) (item : Item) (subj msg : string) (recv : com_date) (w : World) :
  Class item = Has 43 ->
  Subject item = Has subj ->
  subject_hit subj = true ->
  readable (SenderEmailAddress item) -> readable (Body item) ->
  readable (EntryID item) ->
  ReceivedTime item = Has recv ->
  io_error env (OpMkdir QUEUE_DIR) = None ->
  io_error env (OpWriteText (job_path env)) = None ->
  backup_fails env msg ->
  errors_log_writable env ->
  fst (OnItemAdd env item w) = Returns tt /\
  files (snd (OnItemAdd env item w)) !! job_path env
    = Some (json_dumps (record_of item recv)) /\
  executor (snd (OnItemAdd env item w)) = executor w /\
  history (snd (OnItemAdd env item w)) = history w /\
  console (snd (OnItemAdd env item w)) = console w /\
  logs (snd (OnItemAdd env item w)) !! ERRORS_LOG
    = Some (default [] (logs w !! ERRORS_LOG)
            ++ [ctime env +:+ " OnItemAdd error: " +:+ msg +:+ nl]).
Proof.
  intros Hc Hs Hhit Hsender Hbody Hentry Hrecv Hmk Hwr Hbk Hlog.
  destruct (write_temp_json_backup_fails_world env (record_of item recv) w msg Hmk Hwr Hbk)
    as (w1 & Hw & Hf & _ & Hl & Hco & He & Hh).
  assert (OnItemAdd env item w
          = (Returns tt,
             with_logs (<[ ERRORS_LOG :=
                             default [] (logs w1 !! ERRORS_LOG)
                             ++ [ctime env +:+ " OnItemAdd error: " +:+ msg +:+ nl] ]>
                          (logs w1)) w1)) as ->.
  { unfold OnItemAdd, try_except.
    rewrite (OnItemAdd_try_hit env item subj recv w) by done.
    unfold bind at 1. rewrite Hw.
    unfold log_append, os_call. by rewrite Hlog. }
  cbn. by rewrite lookup_insert_eq, Hl.
Qed.

Lemma OnItemAdd_backup_failure_leaves_job_unqueued_witness :
  executor (snd (OnItemAdd Scenario.backup_denied Scenario.vendor_mail initial_world))
    = None /\
  files (snd (OnItemAdd Scenario.backup_denied Scenario.vendor_mail initial_world))
    !! job_path Scenario.backup_denied
    = Some (json_dumps (record_of Scenario.vendor_mail (PyDateTime 2025 10 31 12 0 0))).
Proof.
  destruct (OnItemAdd_backup_failure_leaves_job_unqueued Scenario.backup_denied
              Scenario.vendor_mail "ESKER VENDOR EMAIL - batch 12"
              "[Errno 13] Permission denied" (PyDateTime 2025 10 31 12 0 0)
              initial_world) as (_ & Hf & He & _);
    [done..| right; split; reflexivity | reflexivity |].
  split; [exact He | exact Hf].
Defined.




(** X16: missing attributes.  A mail item without a [Subject] reads as the
    empty subject and is ignored with the world unchanged.  A mail item with
    a matching subject and without [ReceivedTime] writes no file and submits
    nothing; with the error log writable the handler returns normally and
    the [AttributeError] becomes one line of the error log. *)
Theorem OnItemAdd_missing_attributes (env : Env) (item : Item) (w : World) :
  Class item = Has 43 ->
  (Subject item = Absent -> OnItemAdd env item w = (Returns tt, w)) /\
  (forall subj,
     Subject item = Has subj -> subject_hit subj = true ->
     readable (SenderEmailAddress item) -> readable (Body item) ->
     ReceivedTime item = Absent ->
     errors_log_writable env ->
     exists msg : string,
       OnItemAdd env item w
       = (Returns tt,
          with_logs (<[ ERRORS_LOG :=
                          default [] (logs w !! ERRORS_LOG)
                          ++ [ctime env +:+ " OnItemAdd error: " +:+ msg +:+ nl] ]>
                       (logs w)) w)).
Proof.
  intros Hc. split.
  - intros Hs. apply try_except_returns.
    unfold OnItemAdd_try. rewrite Hc, Hs.
    rewrite (bind_returns _ _ w (Some 43) w) by reflexivity.
    rewrite bool_decide_true by done. cbv beta iota delta [negb].
    by rewrite (bind_returns _ _ w "" w) by reflexivity.
  - intros subj Hs Hhit Hsender Hbody Hrecv Hlog. exists "ReceivedTime".
    unfold OnItemAdd, try_except, OnItemAdd_try. rewrite Hc, Hs, Hrecv.
    rewrite (bind_returns _ _ w (Some 43) w) by reflexivity.
    rewrite bool_decide_true by done. cbv beta iota delta [negb].
    rewrite (bind_returns _ _ w subj w) by reflexivity.
    rewrite Hhit. cbv beta iota.
    rewrite (bind_returns _ _ _ _ _ (getattr_default_readable _ _ _ Hsender)).
    rewrite (bind_returns _ _ _ _ _ (getattr_default_readable _ _ _ Hbody)).
    unfold bind at 1. cbn [getattr raise].
    unfold log_append, os_call. by rewrite Hlog.
Qed.

Lemma OnItemAdd_missing_attributes_witness :
  OnItemAdd Scenario.calm Cases.no_subject initial_world = (Returns tt, initial_world) /\
  files (snd (OnItemAdd Scenario.calm Cases.no_received_time initial_world)) = ∅.
Proof.
  destruct (OnItemAdd_missing_attributes Scenario.calm Cases.no_subject initial_world
              eq_refl) as [H1 _].
  destruct (OnItemAdd_missing_attributes Scenario.calm Cases.no_received_time
              initial_world eq_refl) as [_ H2].
  split; [by apply H1|].
  destruct (H2 "esker gl email") as (msg & ->); done.
Defined.

(** ** The makepy runs *)

Lemma log_com_message_world env message w :
  _log_com_message env message w
  = (Returns tt,
     match io_error env (OpAppend CLEANUP_LOG) with
     | None =>
         with_logs (<[ CLEANUP_LOG := cleanup_log w ++ [cleanup_line env message] ]>
                      (logs w)) w
     | Some _ => w
     end).
Proof.
  unfold _log_com_message, try_except, log_append, os_call.
  by destruct (io_error env (OpAppend CLEANUP_LOG)).
Qed.

Lemma try_specs_cons repr env_at mk spec rest w :
  try_specs repr env_at mk (spec :: rest) w
  = match GenerateFromTypeLibSpec mk spec w with
    | (Returns _, w1) =>
        (Returns true,
         snd (_log_com_message (env_at spec) (generated_message repr spec) w1))
    | (Raises err, w1) =>
        try_specs repr env_at mk rest
          (snd (_log_com_message (env_at spec) (failed_message repr spec err) w1))
    end.
Proof.
  cbn [try_specs]. unfold bind at 1. unfold try_except.
  unfold bind at 1.
  destruct (GenerateFromTypeLibSpec mk spec w) as [[[]|err] w1].
  - unfold bind. rewrite log_com_message_world. reflexivity.
  - unfold bind. rewrite log_com_message_world. reflexivity.
Qed.

(** X17: [_generate_outlook_typelib] returns a truth value and never raises,
    whatever the makepy module does on each call (return, raise an
    [Exception], change the world), whatever the clock shows and whether or
    not the cleanup log can be appended to at each line (the temp directory
    itself being found, as everywhere in this development). *)
Theorem generate_outlook_typelib_always_returns
    (repr : typelib_spec -> string) (env_at : typelib_spec -> Env)
    (guid : string) (lcid major minor : Z)
    (specs : list typelib_spec) (makepy_module : makepy) (w : World) :
  exists (b : bool) (w' : World),
    _generate_outlook_typelib repr env_at guid lcid major minor specs makepy_module w
    = (Returns b, w').
Proof.
  unfold _generate_outlook_typelib.
  generalize (attempted_specs guid lcid major minor specs) as attempted.
  intros attempted. revert w.
  induction attempted as [|spec rest IH]; intros w.
  - by exists false, w.
  - rewrite try_specs_cons.
    destruct (GenerateFromTypeLibSpec makepy_module spec w) as [[[]|err] w1].
    + by eexists _, _.
    + apply IH.
Qed.

Lemma collect_specs_spec specs : forall att seen att' seen',
  collect_specs specs att seen = (att', seen') ->
  NoDup att -> (forall s, s ∈ att <-> s ∈ seen) ->
  NoDup att' /\ (forall s, s ∈ att' <-> s ∈ seen') /\
  (forall s, s ∈ att' <-> s ∈ att \/ (s ∈ specs /\ spec_truthy s = true)) /\
  exists more, att' = att ++ more /\ forall s, s ∈ more -> s ∈ specs.
Proof.
  induction specs as [|spec rest IH]; intros att seen att' seen' Hc Hnd Hseen.
  - cbn in Hc. injection Hc as <- <-. split; [done|]. split; [done|].
    split; [intros s; split; [auto|intros [H|[H _]]; [done|by apply elem_of_nil in H]]|].
    exists []. split; [by rewrite app_nil_r|]. intros s H. by apply elem_of_nil in H.
  - cbn [collect_specs] in Hc.
    destruct (spec_truthy spec && negb (bool_decide (spec ∈ seen))) eqn:Hb.
    + apply andb_true_iff in Hb as [Ht Hn].
      apply negb_true_iff, bool_decide_eq_false in Hn.
      apply IH in Hc as (Hnd' & Hseen' & Hin & more & -> & Hmore).
      * split; [done|]. split; [done|]. split.
        -- intros s. rewrite Hin, elem_of_app, list_elem_of_singleton, elem_of_cons.
           split; [intros [[?| ->]|[? ?]]; auto|intros [?|[[ -> |?] ?]]; auto].
        -- exists (spec :: more). split; [by rewrite <- app_assoc|].
           intros s [ -> |?]%elem_of_cons; [left|right; auto].
      * apply NoDup_app. split; [done|]. split; [|apply NoDup_singleton].
        intros s Hs ->%list_elem_of_singleton. by apply Hn, Hseen.
      * intros s. rewrite elem_of_app, list_elem_of_singleton, elem_of_cons, Hseen. tauto.
    + apply IH in Hc as (Hnd' & Hseen' & Hin & more & -> & Hmore); [|done..].
      split; [done|]. split; [done|]. split.
      * intros s. rewrite Hin, elem_of_cons.
        split; [intros [?|[? ?]]; auto|intros [?|[[ -> |?] Ht]]; auto].
        apply andb_false_iff in Hb as [Hb|Hb]; [congruence|].
        apply negb_false_iff, bool_decide_eq_true in Hb. left. by apply Hseen.
      * exists more. split; [done|]. intros s ?. right. auto.
Qed.

(** X18: the specs [_generate_outlook_typelib] attempts hold no spec twice,
    and they are exactly the non-empty specs of the list given and the tuple
    [(guid, lcid, major, minor)], which is attempted in every case. *)
Theorem attempted_specs_no_repeats
    (guid : string) (lcid major minor : Z) (specs : list typelib_spec) :
  NoDup (attempted_specs guid lcid major minor specs) /\
  forall s,
    s ∈ attempted_specs guid lcid major minor specs <->
    (s ∈ specs /\ spec_truthy s = true) \/ s = SpecTuple guid lcid major minor.
Proof.
  unfold attempted_specs.
  destruct (collect_specs specs [] []) as [att seen] eqn:Hc.
  apply collect_specs_spec in Hc as (Hnd & Hseen & Hin & _);
    [|apply NoDup_nil_2|done].
  destruct (bool_decide (SpecTuple guid lcid major minor ∈ seen)) eqn:Hb; cbn [negb].
  - apply bool_decide_eq_true in Hb. split; [done|].
    intros s. rewrite Hin. split; [intros [H|H]; [by apply elem_of_nil in H|auto]|].
    intros [H| ->]; [auto|]. apply Hseen, Hin in Hb. exact Hb.
  - apply bool_decide_eq_false in Hb. split.
    + apply NoDup_app. split; [done|]. split; [|apply NoDup_singleton].
      intros s Hs ->%list_elem_of_singleton. by apply Hb, Hseen.
    + intros s. rewrite elem_of_app, list_elem_of_singleton, Hin.
      split; [intros [[H|H]| ->]; [by apply elem_of_nil in H|auto..]|].
      intros [H| ->]; auto.
Qed.

(** X19: when the tuple [(guid, lcid, major, minor)] is not among the specs
    given (they are names, as the module's own list is), it is attempted
    last, after specs that all come from the list. *)
Theorem attempted_specs_tuple_last
    (guid : string) (lcid major minor : Z) (specs : list typelib_spec) :
  SpecTuple guid lcid major minor ∉ specs ->
  exists names,
    attempted_specs guid lcid major minor specs
    = names ++ [SpecTuple guid lcid major minor] /\
    forall s, s ∈ names -> s ∈ specs /\ spec_truthy s = true.
Proof.
  intros Hno. unfold attempted_specs.
  destruct (collect_specs specs [] []) as [att seen] eqn:Hc.
  apply collect_specs_spec in Hc as (Hnd & Hseen & Hin & _);
    [|apply NoDup_nil_2|done].
  rewrite bool_decide_false.
  - exists att. split; [done|]. intros s Hs. apply Hin in Hs as [Hs|Hs]; [|done].
    by apply elem_of_nil in Hs.
  - intros Ht. apply Hseen, Hin in Ht as [Ht|[Ht _]]; [by apply elem_of_nil in Ht|done].
Qed.

Lemma attempted_specs_tuple_last_witness :
  attempted_specs OUTLOOK_TYPELIB_GUID 0 9 6 OUTLOOK_MAKEPY_SPECS
  = OUTLOOK_MAKEPY_SPECS ++ [SpecTuple OUTLOOK_TYPELIB_GUID 0 9 6].
Proof.
  destruct (attempted_specs_tuple_last OUTLOOK_TYPELIB_GUID 0 9 6 OUTLOOK_MAKEPY_SPECS)
    as (names & H & _).
  - unfold OUTLOOK_MAKEPY_SPECS. rewrite !elem_of_cons, elem_of_nil.
    intros [?|[?|[]]]; discriminate.
  - reflexivity.
Defined.

Lemma try_specs_first_success repr env_at f pre s0 post w :
  (forall s, io_error (env_at s) (OpAppend CLEANUP_LOG) = None) ->
  Forall (fun s => f s <> None) pre -> f s0 = None ->
  fst (try_specs repr env_at (makepy_of f) (pre ++ s0 :: post) w) = Returns true /\
  cleanup_log (snd (try_specs repr env_at (makepy_of f) (pre ++ s0 :: post) w))
  = cleanup_log w ++ map (failed_line repr env_at f) pre
    ++ [generated_line repr env_at s0].
Proof.
  intros Hlog Hpre Hs0. revert w.
  induction Hpre as [|s pre Hs Hpre IH]; intros w.
  - cbn [app map]. rewrite try_specs_cons. cbn [makepy_of GenerateFromTypeLibSpec].
    rewrite Hs0, log_com_message_world, Hlog. cbn [fst snd].
    split; [done|]. unfold cleanup_log at 1. cbn [logs with_logs].
    by rewrite lookup_insert_eq.
  - rewrite <- app_comm_cons, try_specs_cons. cbn [makepy_of GenerateFromTypeLibSpec].
    destruct (f s) as [err|] eqn:Hf; [|done].
    rewrite log_com_message_world, Hlog. cbn [snd].
    destruct (IH (with_logs
                    (<[ CLEANUP_LOG := cleanup_log w
                          ++ [cleanup_line (env_at s) (failed_message repr s err)] ]>
                       (logs w)) w)) as [Hr Hl].
    split; [done|]. rewrite Hl. unfold cleanup_log at 1. cbn [logs with_logs].
    rewrite lookup_insert_eq. cbn [default map]. unfold failed_line at 2. rewrite Hf.
    unfold id. by rewrite <- app_assoc.
Qed.

Lemma try_specs_all_fail repr env_at f attempted w :
  (forall s, io_error (env_at s) (OpAppend CLEANUP_LOG) = None) ->
  Forall (fun s => f s <> None) attempted ->
  fst (try_specs repr env_at (makepy_of f) attempted w) = Returns false /\
  cleanup_log (snd (try_specs repr env_at (makepy_of f) attempted w))
  = cleanup_log w ++ map (failed_line repr env_at f) attempted.
Proof.
  intros Hlog Hall. revert w.
  induction Hall as [|s rest Hs Hall IH]; intros w.
  - cbn. by rewrite app_nil_r.
  - rewrite try_specs_cons. cbn [makepy_of GenerateFromTypeLibSpec].
    destruct (f s) as [err|] eqn:Hf; [|done].
    rewrite log_com_message_world, Hlog. cbn [snd].
    destruct (IH (with_logs
                    (<[ CLEANUP_LOG := cleanup_log w
                          ++ [cleanup_line (env_at s) (failed_message repr s err)] ]>
                       (logs w)) w)) as [Hr Hl].
    split; [done|]. rewrite Hl. unfold cleanup_log at 1. cbn [logs with_logs].
    rewrite lookup_insert_eq. cbn [default map]. unfold failed_line at 2. rewrite Hf.
    unfold id. by rewrite <- app_assoc.
Qed.

(** X20: the first success wins.  Take a makepy whose outcome depends on
    the spec only and that leaves the files and logs alone, and let the
    cleanup log be writable at every line; [repr] is Python's, whatever it
    gives, and every line carries the clock reading of its own moment.
    When the attempted specs are [pre ++ s0 :: post], every run of [pre]
    fails and the run of [s0] goes through, the result is [True] and the
    log gains one failure line per spec of [pre], in order, and then the
    line of [s0], and nothing for [post]; when every run fails, the result
    is [False] and the log gains one failure line per attempted spec. *)
Theorem generate_outlook_typelib_first_success
    (repr : typelib_spec -> string) (env_at : typelib_spec -> Env)
    (guid : string) (lcid major minor : Z)
    (specs : list typelib_spec) (f : typelib_spec -> option exn) (w : World) :
  (forall s, io_error (env_at s) (OpAppend CLEANUP_LOG) = None) ->
  let attempted := attempted_specs guid lcid major minor specs in
  let result :=
    _generate_outlook_typelib repr env_at guid lcid major minor specs (makepy_of f) w in
  (forall pre s0 post,
     attempted = pre ++ s0 :: post ->
     Forall (fun s => f s <> None) pre -> f s0 = None ->
     fst result = Returns true /\
     cleanup_log (snd result)
     = cleanup_log w ++ map (failed_line repr env_at f) pre
       ++ [generated_line repr env_at s0]) /\
  (Forall (fun s => f s <> None) attempted ->
   fst result = Returns false /\
   cleanup_log (snd result)
   = cleanup_log w ++ map (failed_line repr env_at f) attempted).
Proof.
  intros Hlog attempted result. subst attempted result.
  unfold _generate_outlook_typelib. split.
  - intros pre s0 post -> Hpre Hs0. by apply try_specs_first_success.
  - intros Hall. by apply try_specs_all_fail.
Qed.

Lemma generate_outlook_typelib_first_success_witness :
  fst (_generate_outlook_typelib Cases.repr_plain Cases.clock_at OUTLOOK_TYPELIB_GUID 0 9 6
         OUTLOOK_MAKEPY_SPECS (makepy_of Cases.names_unregistered) initial_world)
  = Returns true /\
  cleanup_log
    (snd (_generate_outlook_typelib Cases.repr_plain Cases.clock_at OUTLOOK_TYPELIB_GUID
            0 9 6 OUTLOOK_MAKEPY_SPECS (makepy_of Cases.names_unregistered)
            initial_world))
  = [ctime Scenario.calm
     +:+ " makepy failed for 'Outlook.Application': Library not registered." +:+ nl;
     ctime Scenario.calm_later
     +:+ " makepy failed for 'Microsoft Outlook 16.0 Object Library': "
     +:+ "Library not registered." +:+ nl;
     ctime Scenario.calm_later
     +:+ " makepy generated Outlook typelib for spec "
     +:+ "('{00062FFF-0000-0000-C000-000000000046}', 0, 9, 6)" +:+ nl].
Proof.
  assert (forall s, io_error (Cases.clock_at s) (OpAppend CLEANUP_LOG) = None) as Hlog.
  { intros [name|g l ma mi]; [|reflexivity].
    unfold Cases.clock_at. by repeat case_match. }
  destruct (generate_outlook_typelib_first_success Cases.repr_plain Cases.clock_at
              OUTLOOK_TYPELIB_GUID 0 9 6 OUTLOOK_MAKEPY_SPECS Cases.names_unregistered
              initial_world Hlog) as [H _].
  destruct (H OUTLOOK_MAKEPY_SPECS (SpecTuple OUTLOOK_TYPELIB_GUID 0 9 6) []) as [Hr Hl].
  - reflexivity.
  - by repeat constructor.
  - reflexivity.
  - split; [exact Hr|]. rewrite Hl. reflexivity.
Defined.

(** ** What the handler leaves alone on disk *)





















(** X22: the text of a payload determines the record: two records with the
    same JSON text are the same list of keys and values, in the same
    order. *)
Theorem json_dumps_injective (d1 d2 : list (string * string)) :
  json_dumps d1 = json_dumps d2 -> d1 = d2.
Proof.
  intros H. apply (f_equal json_loads) in H.
  rewrite !json_loads_dumps in H. by injection H.
Qed.

Lemma json_dumps_injective_witness :
  payload_of "esker gl email" "ap@vendor.example" "2025-10-31T12:00:00Z" "" ""
  = [("subject", "esker gl email"); ("sender_address", "ap@vendor.example");
     ("received_utc", "2025-10-31T12:00:00Z"); ("body", ""); ("entry_id", "")].
Proof.
  apply (json_dumps_injective
           (payload_of "esker gl email" "ap@vendor.example" "2025-10-31T12:00:00Z" "" "")).
  reflexivity.
Defined.

(** ** From the mail item to the archive *)

Lemma run_worker_archives_files env p w content out err :
  worker_result env p = Completed 0 out err ->
  p ≠ archive_path p ->
  files w !! p = Some content ->
  io_error env (OpAppend RUNNER_LOG) = None ->
  io_error env (OpMkdir ARCHIVE_SUCCESS_DIR) = None ->
  io_error env (OpCopy p (archive_path p)) = None ->
  io_error env (OpUnlink p) = None ->
  files (snd (run_worker env p w)) = delete p (<[ archive_path p := content ]> (files w)).
Proof.
  intros Hres Hne Hfile Hlog Hmk Hcp Hun.
  unfold run_worker. rewrite Hres. unfold_py. cbn.
  rewrite Hlog. cbn. rewrite Hmk. cbn.
  fold (archive_path p).
  rewrite decide_False by done. rewrite Hfile, Hcp. cbn.
  rewrite lookup_insert_ne by done. rewrite Hfile, Hun. done.
Qed.

(** X23: the hand-off end to end.  A mail item with a matching subject is
    written by [OnItemAdd] (every call of the writer going through); when
    [worker_task] then runs on the job path, the worker process exits 0 and
    the log, the archive directory, the copy and the deletion go through,
    the job file is gone from the queue, the archive and the Downloads
    mirror both hold the JSON text of the item's record, and every other
    file is as it was before the mail arrived. *)
Theorem handoff_archives_the_record
    (env env' : Env) (item : Item) (subj : string) (recv : com_date) (w : World)
    (out err : string) :
  Class item = Has 43 ->
  Subject item = Has subj ->
  subject_hit subj = true ->
  readable (SenderEmailAddress item) -> readable (Body item) ->
  readable (EntryID item) ->
  ReceivedTime item = Has recv ->
  writer_calls_succeed env ->
  worker_result env' (job_path env) = Completed 0 out err ->
  io_error env' (OpAppend RUNNER_LOG) = None ->
  io_error env' (OpMkdir ARCHIVE_SUCCESS_DIR) = None ->
  io_error env' (OpCopy (job_path env) (archive_path (job_path env))) = None ->
  io_error env' (OpUnlink (job_path env)) = None ->
  let w2 := snd (worker_task env' (job_path env) (snd (OnItemAdd env item w))) in
  files w2 !! job_path env = None /\
  files w2 !! archive_path (job_path env) = Some (json_dumps (record_of item recv)) /\
  files w2 !! mirror_path env = Some (json_dumps (record_of item recv)) /\
  (forall q : Path,
     q ≠ job_path env -> q ≠ archive_path (job_path env) -> q ≠ mirror_path env ->
     files w2 !! q = files w !! q).
Proof.
  intros Hc Hs Hhit Hsender Hbody Hentry Hrecv Hok Hres Hlog Hmk Hcp Hun w2.
  subst w2.
  destruct (worker_task_files env' (job_path env) (snd (OnItemAdd env item w))) as [-> _].
  assert (Hja : job_path env ≠ archive_path (job_path env)) by (intros [= H]).
  assert (Hjm : job_path env ≠ mirror_path env) by (intros [= H]).
  assert (Ham : archive_path (job_path env) ≠ mirror_path env) by (intros [= H]).
  assert (Hw1 : files (snd (OnItemAdd env item w))
                = <[ mirror_path env := json_dumps (record_of item recv) ]>
                    (<[ job_path env := json_dumps (record_of item recv) ]> (files w))).
  { rewrite (OnItemAdd_hit_files env item subj recv w) by done.
    by rewrite write_temp_json_success. }
  rewrite (run_worker_archives_files env' (job_path env) _
             (json_dumps (record_of item recv)) out err); try done.
  - rewrite Hw1. split; [by rewrite lookup_delete_eq|].
    split; [by rewrite lookup_delete_ne, lookup_insert_eq|].
    split.
    + rewrite lookup_delete_ne, lookup_insert_ne, lookup_insert_eq by done. done.
    + intros q H1 H2 H3.
      by rewrite lookup_delete_ne, !lookup_insert_ne.
  - rewrite Hw1. by rewrite lookup_insert_ne, lookup_insert_eq.
Qed.

Lemma handoff_archives_the_record_witness :
  files (snd (worker_task Scenario.calm (job_path Scenario.calm)
                (snd (OnItemAdd Scenario.calm Scenario.vendor_mail initial_world))))
    !! job_path Scenario.calm = None.
Proof.
  destruct (handoff_archives_the_record Scenario.calm Scenario.calm Scenario.vendor_mail
              "ESKER VENDOR EMAIL - batch 12" (PyDateTime 2025 10 31 12 0 0)
              initial_world "done" "") as (H & _);
    [done..| repeat split; reflexivity | reflexivity | reflexivity | reflexivity
     | reflexivity | reflexivity |].
  exact H.
Defined.
